(** * TabInfoCopy: the format registry and its transforms

    A shallow embedding of [format.ts] (the hardcoded builtin and custom
    format specs of the Tab Copy extension) together with the render
    pipeline that consumes a [Transforms] value.

    JavaScript data is kept as the code has it:
    - a [string | undefined] value is an [option string];
    - a template literal that interpolates [undefined] yields the text
      ["undefined"];
    - [a || b] picks [b] when [a] is falsy, that is undefined or empty;
    - a call that can raise (a method call on [undefined]) returns a
      [completion]. *)

From Stdlib Require Import String Ascii List ZArith Lia Bool DecimalString.
Import ListNotations.
Open Scope string_scope.

Set Implicit Arguments.
Local Set Warnings "-register-all".

(** ** JavaScript values and completions *)

Inductive JsError : Type :=
| TypeError (message : string).

Inductive completion (A : Type) : Type :=
| Normal (value : A)
| Throw (error : JsError).

Arguments Normal {A} value.
Arguments Throw {A} error.

Definition bind {A B : Type} (c : completion A) (k : A -> completion B)
  : completion B :=
  match c with
  | Normal a => k a
  | Throw e => Throw e
  end.

Notation "x <- c ;; k" := (bind c (fun x => k))
  (at level 61, c at next level, right associativity).

(** [fails c]: the call ended by raising an error. *)
Definition fails {A : Type} (c : completion A) : Prop :=
  exists e, c = Throw e.

(** A value of an array literal that mixes strings, [null] and
    [undefined] (the CSV row). *)
Inductive jsval : Type :=
| JsUndefined
| JsNull
| JsString (s : string).

(** The object literals handed to [JSON.stringify]. *)
Inductive json : Type :=
| JStr (s : string)
| JArr (items : list json)
| JObj (members : list (string * json)).

(** Truthiness of a [string | undefined]. *)
Definition truthy (v : option string) : bool :=
  match v with
  | Some (String _ _) => true
  | _ => false
  end.

(** [a || b] on [string | undefined] operands. *)
Definition js_or (a b : option string) : option string :=
  if truthy a then a else b.

(** [`${v}`]: interpolation of a [string | undefined]. *)
Definition interpolate (v : option string) : string :=
  match v with
  | Some s => s
  | None => "undefined"
  end.

(** [`${n}`] for a sequence number. *)
Definition string_of_nat (n : nat) : string :=
  NilEmpty.string_of_uint (Nat.to_uint n).

(** [s.replace(/c/g, r)]: every occurrence of the character [c] is
    replaced by the string [r]. *)
Fixpoint replace_all (c : ascii) (r : string) (s : string) : string :=
  match s with
  | EmptyString => EmptyString
  | String a rest =>
      if Ascii.eqb a c then r ++ replace_all c r rest
      else String a (replace_all c r rest)
  end.

(** [v.replace(...)] on a receiver that may be [undefined]: a method
    call on [undefined] raises a TypeError. *)
Definition receiver (v : option string) : completion string :=
  match v with
  | Some s => Normal s
  | None => Throw (TypeError "Cannot read properties of undefined")
  end.

(** The white space class [\s] of a JavaScript regular expression, on the
    UTF-8 bytes of the text: [strip_space s] removes one leading
    white-space character, if any. *)
Definition strip_space (s : string) : option string :=
  let byte (a : ascii) (n : nat) := Nat.eqb (nat_of_ascii a) n in
  let within (a : ascii) (lo hi : nat) :=
    Nat.leb lo (nat_of_ascii a) && Nat.leb (nat_of_ascii a) hi in
  match s with
  | String a rest =>
      if within a 9 13 || byte a 32 then Some rest
      else
        match rest with
        | String b rest2 =>
            if byte a 194 && byte b 160 then Some rest2
            else
              match rest2 with
              | String c rest3 =>
                  if byte a 225 && byte b 154 && byte c 128 then Some rest3
                  else if byte a 226 && byte b 128 && within c 128 138
                       then Some rest3
                  else if byte a 226 && byte b 128
                          && (byte c 168 || byte c 169 || byte c 175)
                       then Some rest3
                  else if byte a 226 && byte b 129 && byte c 159 then Some rest3
                  else if byte a 227 && byte b 128 && byte c 128 then Some rest3
                  else if byte a 239 && byte b 187 && byte c 191 then Some rest3
                  else None
              | EmptyString => None
              end
        | EmptyString => None
        end
  | EmptyString => None
  end.

(** [fuel] bounds the number of white-space characters skipped; the
    length of the text is always enough. *)
Fixpoint spaces_then_brace (fuel : nat) (s : string) : bool :=
  if String.eqb s "}" then true
  else
    match fuel with
    | O => false
    | S fuel' =>
        match strip_space s with
        | Some rest => spaces_then_brace fuel' rest
        | None => false
        end
    end.

(** Does the whole of [s] match [\[\][\s\n]*\}$] ? *)
Definition empty_array_tail (s : string) : bool :=
  match s with
  | String "[" (String "]" rest) =>
      spaces_then_brace (String.length rest) rest
  | _ => false
  end.

(** [s.replace(/\[\][\s\n]*\}$/, '[')]: the leftmost match, if any, is
    replaced by an opening bracket. *)
Fixpoint open_tabs_array (s : string) : string :=
  if empty_array_tail s then "["
  else
    match s with
    | EmptyString => EmptyString
    | String a rest => String a (open_tabs_array rest)
    end.

(** ** Tabs and windows ([chrome.tabs.Tab], [chrome.windows.Window]) *)

Module Tab.
Record t : Type := mk {
  id : option nat;
  title : option string;
  url : option string;
  favIconUrl : option string
}.
End Tab.

Module Window.
Record t : Type := mk {
  id : option nat;
  tabs : list Tab.t
}.
End Window.

(** ** Format options

    The [opts] argument of [label] and [transforms] is a plain object
    ([Record<string, any>]); each field below is one of the keys the
    formats read, absent when the object lacks it. *)

Module Template.
Record t : Type := mk {
  header : string;
  tab : string;
  delimiter : string;
  footer : string
}.
End Template.

Module Opts.
Record t : Type := mk {
  separator : option string;
  properties : option (list string);
  pretty : option bool;
  indent : option string;
  includeHeader : option bool;
  name : option string;
  template : option Template.t
}.

Definition empty : t := mk None None None None None None None.
End Opts.

(** ** Transform callbacks and their contexts *)

Inductive ScopeType : Type :=
| ScopeTypeWindow   (* 'window' *)
| ScopeTypeTab.     (* 'tab' *)

Module StartCtx.
Record t : Type := mk {
  formatName : string;
  windowCount : option nat;   (* missing for tab-only scopes *)
  tabCount : nat;
  scopeType : ScopeType
}.
End StartCtx.

Module WindowCtx.
Record t : Type := mk {
  window : Window.t;
  seq : nat;
  windowTabCount : nat
}.
End WindowCtx.

Module TabCtx.
Record t : Type := mk {
  tab : Tab.t;
  globalSeq : nat;             (* sequence across all tabs *)
  windowTabSeq : option nat;   (* missing for tab-only scopes *)
  windowSeq : option nat       (* missing for tab-only scopes *)
}.
End TabCtx.

Module EndCtx.
Record t : Type := mk {
  formatName : string;
  windowCount : option nat;
  tabCount : nat
}.
End EndCtx.

(** What a callback hands back: a string, [undefined] (a non-null
    assertion that does not hold at run time), or a raised error. *)
Definition callback (C : Type) : Type := C -> completion (option string).

Module TextTransform.
Record t : Type := mk {
  start : option (callback StartCtx.t);
  windowStart : option (callback WindowCtx.t);
  tab : option (callback TabCtx.t);
  tabDelimiter : option string;
  windowEnd : option (callback WindowCtx.t);
  windowDelimiter : option string;
  end_ : option (callback EndCtx.t)
}.
End TextTransform.

Module Transforms.
Record t (Nxs : Type) : Type := mk {
  text : TextTransform.t;
  html : option TextTransform.t;
  nxs : option (list Window.t -> Nxs)
}.
Arguments mk {Nxs} text html nxs.
Arguments text {Nxs} t.
Arguments html {Nxs} t.
Arguments nxs {Nxs} t.
End Transforms.

Module Format.
(** [id] is absent on the custom-format template, which is declared
    as [Omit<Format, 'id'>]. *)
Record t (Nxs : Type) : Type := mk {
  id : option string;
  label : option Opts.t -> string;
  transforms : option Opts.t -> Transforms.t Nxs;
  opts : option Opts.t
}.
Arguments mk {Nxs} id label transforms opts.
Arguments id {Nxs} t.
Arguments label {Nxs} t.
Arguments transforms {Nxs} t.
Arguments opts {Nxs} t.
End Format.

(** A callback that always returns a string. *)
Definition returns {C : Type} (f : C -> string) : option (callback C) :=
  Some (fun c => Normal (Some (f c))).

(** [invoke cb c]: the outcome of calling [cb] when it is declared. *)
Definition invoke {C : Type} (cb : option (callback C)) (c : C)
  : option (completion (option string)) :=
  match cb with
  | Some f => Some (f c)
  | None => None
  end.

(** ** Constants of [format.ts] *)

Definition MIN_VISIBLE_FORMAT_COUNT : nat := 3.
Definition DEFAULT_TITLE_URL_1_LINE_SEPARATOR : string := ": ".
Definition DEFAULT_CUSTOM_FORMAT_NAME : string := "Custom format".
Definition DEFAULT_INDENT_SIZE : Z := 3%Z.

(** The line feed and the double quote, which a Rocq string literal
    cannot spell. *)
Definition LF : string := String "010"%char EmptyString.
Definition DQUOTE : string := String "034"%char EmptyString.

(** [opts?.key] *)
Definition opt_get {A : Type} (o : option Opts.t) (key : Opts.t -> option A)
  : option A :=
  match o with
  | Some x => key x
  | None => None
  end.

(** ** Collaborators imported by [format.ts]

    [@/intl], [@/util/string], [@/util/csv] and [@/util/nxs-mime-type]
    are other modules of the extension; [JSON.stringify] and [parseInt]
    belong to the platform.  The formats are defined over any
    implementation of them. *)

Class Externals : Type := {
  NxsMimeContent : Type;
  intl_link : string;
  intl_url : string;
  intl_title : string;
  intl_window : string;
  intl_htmlTable : string;
  intl_conjoin : string -> string -> string;
  sentenceCase : string -> string;
  indent : string -> Z -> string;
  encodeHtml : string -> string;
  stringifyCSVRow : list jsval -> string;
  JSON_stringify : json -> Z -> string;   (* JSON.stringify(v, undefined, space) *)
  parseInt : option string -> Z -> option Z   (* [None] is NaN *)
}.

(** ** The formats of [format.ts] *)

Section Formats.

Context {ext : Externals}.

Definition Format : Type := Format.t NxsMimeContent.
Definition Transforms : Type := Transforms.t NxsMimeContent.

(** A [Transforms] object literal with a [text] entry only. *)
Definition text_only (t : TextTransform.t) : Transforms :=
  Transforms.mk t None None.

(** *** Helpers *)

Definition getNumberedWindowText (seq : nat) : string :=
  sentenceCase intl_window ++ " " ++ string_of_nat seq.

(** [separator = DEFAULT_TITLE_URL_1_LINE_SEPARATOR]: the default
    applies when the argument is [undefined]. *)
Definition getTitleUrlText (url title separator : option string) : string :=
  let separator :=
    match separator with
    | Some s => s
    | None => DEFAULT_TITLE_URL_1_LINE_SEPARATOR
    end in
  interpolate (js_or title (Some "(untitled)")) ++ separator
    ++ interpolate url.

Definition getAnchorTagHtml (tab : Tab.t) : string :=
  if truthy (Tab.url tab)
  then "<a href=" ++ DQUOTE ++ interpolate (Tab.url tab) ++ DQUOTE ++ ">"
       ++ encodeHtml (interpolate (js_or (Tab.title tab) (Tab.url tab)))
       ++ "</a>"
  else "".

Definition urlTextTransform : TextTransform.t :=
  {| TextTransform.start := None;
     TextTransform.windowStart :=
       returns (fun c => getNumberedWindowText (WindowCtx.seq c) ++ LF ++ LF);
     TextTransform.tab :=
       Some (fun c => Normal (Tab.url (TabCtx.tab c)));
     TextTransform.tabDelimiter := Some LF;
     TextTransform.windowEnd := None;
     TextTransform.windowDelimiter := Some (LF ++ LF);
     TextTransform.end_ := None |}.

(** *** link *)

Definition link : Format :=
  {| Format.id := Some "link";
     Format.label := fun _ => sentenceCase intl_link;
     Format.transforms := fun _ =>
       {| Transforms.text := urlTextTransform;
          Transforms.html := Some
            {| TextTransform.start := None;
               TextTransform.windowStart :=
                 returns (fun c =>
                   getNumberedWindowText (WindowCtx.seq c)
                     ++ "<br>" ++ LF ++ "<br>" ++ LF);
               TextTransform.tab :=
                 returns (fun c => getAnchorTagHtml (TabCtx.tab c));
               TextTransform.tabDelimiter := Some ("<br>" ++ LF);
               TextTransform.windowEnd := None;
               TextTransform.windowDelimiter :=
                 Some ("<br>" ++ LF ++ "<br>" ++ LF);
               TextTransform.end_ := None |};
          Transforms.nxs := None |};
     Format.opts := None |}.

(** *** url *)

Definition url : Format :=
  {| Format.id := Some "url";
     Format.label := fun _ => intl_url;
     Format.transforms := fun _ => text_only urlTextTransform;
     Format.opts := None |}.

(** *** titleUrl1Line *)

Definition titleUrl1Line : Format :=
  {| Format.id := Some "titleUrl1Line";
     Format.label := fun opts =>
       sentenceCase
         (getTitleUrlText (Some intl_url) (Some intl_title)
            (opt_get opts Opts.separator));
     Format.transforms := fun opts => text_only
       {| TextTransform.start := None;
          TextTransform.windowStart :=
            returns (fun c =>
              getNumberedWindowText (WindowCtx.seq c) ++ LF ++ LF);
          TextTransform.tab :=
            returns (fun c =>
              getTitleUrlText (Tab.url (TabCtx.tab c))
                (Tab.title (TabCtx.tab c)) (opt_get opts Opts.separator));
          TextTransform.tabDelimiter := Some LF;
          TextTransform.windowEnd := None;
          TextTransform.windowDelimiter := Some (LF ++ LF);
          TextTransform.end_ := None |};
     Format.opts := Some
       {| Opts.separator := Some DEFAULT_TITLE_URL_1_LINE_SEPARATOR;
          Opts.properties := None;
          Opts.pretty := None;
          Opts.indent := None;
          Opts.includeHeader := None;
          Opts.name := None;
          Opts.template := None |} |}.

(** *** titleUrl2Line *)

Definition titleUrl2Line : Format :=
  {| Format.id := Some "titleUrl2Line";
     Format.label := fun _ =>
       sentenceCase (intl_conjoin intl_title intl_url);
     Format.transforms := fun _ => text_only
       {| TextTransform.start := None;
          TextTransform.windowStart :=
            returns (fun c =>
              getNumberedWindowText (WindowCtx.seq c) ++ LF ++ LF);
          TextTransform.tab :=
            returns (fun c =>
              getTitleUrlText (Tab.url (TabCtx.tab c))
                (Tab.title (TabCtx.tab c)) (Some LF));
          TextTransform.tabDelimiter := Some (LF ++ LF);
          TextTransform.windowEnd := None;
          TextTransform.windowDelimiter := Some (LF ++ LF);
          TextTransform.end_ := None |};
     Format.opts := None |}.

(** *** title *)

Definition title : Format :=
  {| Format.id := Some "title";
     Format.label := fun _ => sentenceCase intl_title;
     Format.transforms := fun _ => text_only
       {| TextTransform.start := None;
          TextTransform.windowStart :=
            returns (fun c =>
              getNumberedWindowText (WindowCtx.seq c) ++ LF ++ LF);
          TextTransform.tab :=
            Some (fun c =>
              Normal (js_or (Tab.title (TabCtx.tab c))
                            (Tab.url (TabCtx.tab c))));
          TextTransform.tabDelimiter := Some LF;
          TextTransform.windowEnd := None;
          TextTransform.windowDelimiter := Some (LF ++ LF);
          TextTransform.end_ := None |};
     Format.opts := None |}.

(** *** markdown *)

(** The [tab] callback: both [.replace] chains are method calls, on
    [title || url] and on [url]; either receiver may be [undefined]. *)
Definition markdown_tab : callback TabCtx.t := fun c =>
  let title := Tab.title (TabCtx.tab c) in
  let url := Tab.url (TabCtx.tab c) in
  text <- receiver (js_or title url) ;;
  target <- receiver url ;;
  Normal (Some
    ("[" ++ replace_all "]" "\]" (replace_all "[" "\[" text)
     ++ "](" ++ replace_all ")" "\)" (replace_all "(" "\(" target)
     ++ ")")).

Definition markdown : Format :=
  {| Format.id := Some "markdown";
     Format.label := fun _ => "Markdown";
     Format.transforms := fun _ => text_only
       {| TextTransform.start := None;
          TextTransform.windowStart :=
            returns (fun c =>
              "## " ++ getNumberedWindowText (WindowCtx.seq c) ++ LF ++ LF);
          TextTransform.tab := Some markdown_tab;
          TextTransform.tabDelimiter := Some (LF ++ LF);
          TextTransform.windowEnd := None;
          TextTransform.windowDelimiter := Some (LF ++ LF);
          TextTransform.end_ := None |};
     Format.opts := None |}.

(** *** bbcode *)

Definition bbcode : Format :=
  {| Format.id := Some "bbcode";
     Format.label := fun _ => "BBCode";
     Format.transforms := fun _ => text_only
       {| TextTransform.start := None;
          TextTransform.windowStart :=
            returns (fun c =>
              getNumberedWindowText (WindowCtx.seq c) ++ LF ++ LF);
          TextTransform.tab :=
            returns (fun c =>
              let title := Tab.title (TabCtx.tab c) in
              let url := Tab.url (TabCtx.tab c) in
              if truthy title
              then "[url=" ++ interpolate url ++ "]" ++ interpolate title
                   ++ "[/url]"
              else "[url]" ++ interpolate url ++ "[/url]");
          TextTransform.tabDelimiter := Some LF;
          TextTransform.windowEnd := None;
          TextTransform.windowDelimiter := Some (LF ++ LF);
          TextTransform.end_ := None |};
     Format.opts := None |}.

(** *** csv *)

Definition csv_start (c : StartCtx.t) : string :=
  match StartCtx.tabCount c with
  | O => ""
  | S _ =>
      (match StartCtx.scopeType c with
       | ScopeTypeWindow => "Window,"
       | ScopeTypeTab => ""
       end) ++ "Title,URL" ++ LF
  end.

(** The row array before [.filter((item) => item !== undefined)]. *)
Definition csv_row (c : TabCtx.t) : list jsval :=
  [ match TabCtx.windowSeq c with
    | Some (S n) => JsString (getNumberedWindowText (S n))
    | _ => JsUndefined   (* no windowSeq means scopeType is 'tab' *)
    end;
    (if truthy (Tab.title (TabCtx.tab c))
     then JsString (interpolate (Tab.title (TabCtx.tab c)))
     else JsNull);
    match Tab.url (TabCtx.tab c) with
    | Some u => JsString u
    | None => JsUndefined
    end ].

Definition defined (v : jsval) : bool :=
  match v with
  | JsUndefined => false
  | _ => true
  end.

Definition csv_tab (c : TabCtx.t) : string :=
  stringifyCSVRow (filter defined (csv_row c)).

Definition csv : Format :=
  {| Format.id := Some "csv";
     Format.label := fun _ => "CSV";
     Format.transforms := fun _ => text_only
       {| TextTransform.start := returns csv_start;
          TextTransform.windowStart := None;
          TextTransform.tab := returns csv_tab;
          TextTransform.tabDelimiter := Some LF;
          TextTransform.windowEnd := None;
          TextTransform.windowDelimiter := Some LF;
          TextTransform.end_ := None |};
     Format.opts := None |}.

(** *** json *)

(** [opts?.pretty] as a condition. *)
Definition json_pretty (opts : option Opts.t) : bool :=
  match opt_get opts Opts.pretty with
  | Some true => true
  | _ => false
  end.

Definition json_newline (opts : option Opts.t) : string :=
  if json_pretty opts then LF else "".

Definition json_indentSize (opts : option Opts.t) : Z :=
  if json_pretty opts
  then match parseInt (opt_get opts Opts.indent) 10 with
       | Some configuredIndent => configuredIndent
       | None => DEFAULT_INDENT_SIZE
       end
  else 0%Z.

(** [!opts?.properties?.length] *)
Definition noProperties (opts : option Opts.t) : bool :=
  match opt_get opts Opts.properties with
  | Some (_ :: _) => false
  | _ => true
  end.

(** [opts.properties.includes(key)] *)
Definition properties_include (opts : option Opts.t) (key : string) : bool :=
  match opt_get opts Opts.properties with
  | Some l => existsb (String.eqb key) l
  | None => false
  end.

(** [...(v && (noProperties || opts.properties.includes(key)) ? { key: v } : null)] *)
Definition json_member (opts : option Opts.t) (key : string)
    (v : option string) : list (string * json) :=
  if truthy v && (noProperties opts || properties_include opts key)
  then [(key, JStr (interpolate v))]
  else [].

(** The object literal that the [tab] callback stringifies. *)
Definition json_tab_object (opts : option Opts.t) (tab : Tab.t)
  : list (string * json) :=
  json_member opts "title" (Tab.title tab)
    ++ json_member opts "url" (Tab.url tab)
    ++ json_member opts "favIconUrl" (Tab.favIconUrl tab).

Definition json_windowStart (opts : option Opts.t) (c : WindowCtx.t)
  : string :=
  json_newline opts
    ++ indent
         (open_tabs_array
            (JSON_stringify
               (JObj [("title", JStr (getNumberedWindowText (WindowCtx.seq c)));
                      ("tabs", JArr [])])
               (json_indentSize opts)))
         (json_indentSize opts).

Definition json_tab (opts : option Opts.t) (c : TabCtx.t) : string :=
  json_newline opts
    ++ indent
         (JSON_stringify (JObj (json_tab_object opts (TabCtx.tab c)))
            (json_indentSize opts))
         (match TabCtx.windowSeq c with
          | Some (S _) => (json_indentSize opts * 3)%Z
          | _ => json_indentSize opts
          end).

Definition json_windowEnd (opts : option Opts.t) (c : WindowCtx.t)
  : string :=
  json_newline opts ++ indent "]" (json_indentSize opts * 2)%Z
    ++ json_newline opts ++ indent "}" (json_indentSize opts).

Definition json_format : Format :=
  {| Format.id := Some "json";
     Format.label := fun _ => "JSON";
     Format.transforms := fun opts => text_only
       {| TextTransform.start := returns (fun _ => "[");
          TextTransform.windowStart := returns (json_windowStart opts);
          TextTransform.tab := returns (json_tab opts);
          TextTransform.tabDelimiter := Some ",";
          TextTransform.windowEnd := returns (json_windowEnd opts);
          TextTransform.windowDelimiter := Some ",";
          TextTransform.end_ := returns (fun _ => json_newline opts ++ "]") |};
     Format.opts := Some
       {| Opts.separator := None;
          Opts.properties := Some ["title"; "url"];
          Opts.pretty := Some true;
          Opts.indent := Some "3";
          Opts.includeHeader := None;
          Opts.name := None;
          Opts.template := None |} |}.

(** *** html *)

Definition html : Format :=
  {| Format.id := Some "html";
     Format.label := fun _ => "HTML";
     Format.transforms := fun _ => text_only
       {| TextTransform.start := None;
          TextTransform.windowStart :=
            returns (fun c =>
              intl_window ++ " " ++ string_of_nat (WindowCtx.seq c));
          TextTransform.tab :=
            returns (fun c =>
              interpolate
                (js_or (js_or (Tab.title (TabCtx.tab c))
                              (Tab.url (TabCtx.tab c)))
                       (Some "")));
          TextTransform.tabDelimiter := Some "";
          TextTransform.windowEnd := None;
          TextTransform.windowDelimiter := None;
          TextTransform.end_ := None |};
     Format.opts := None |}.

(** *** htmlTable *)

Definition htmlTable_transform : TextTransform.t :=
  {| TextTransform.start := None;
     TextTransform.windowStart := None;
     TextTransform.tab := returns (fun c => getAnchorTagHtml (TabCtx.tab c));
     TextTransform.tabDelimiter := Some ("<br>" ++ LF);
     TextTransform.windowEnd := None;
     TextTransform.windowDelimiter := None;
     TextTransform.end_ := None |}.

Definition htmlTable : Format :=
  {| Format.id := Some "htmlTable";
     Format.label := fun _ => sentenceCase intl_htmlTable;
     Format.transforms := fun _ =>
       {| Transforms.text := htmlTable_transform;
          Transforms.html := Some htmlTable_transform;
          Transforms.nxs := None |};
     Format.opts := Some
       {| Opts.separator := None;
          Opts.properties := None;
          Opts.pretty := None;
          Opts.indent := None;
          Opts.includeHeader := Some false;
          Opts.name := None;
          Opts.template := None |} |}.

(** *** The registry *)

Definition builtinFormats : list Format :=
  [link; url; titleUrl1Line; titleUrl2Line; title; markdown; bbcode; csv;
   json_format; html; htmlTable].

Definition customFormat : Format :=
  {| Format.id := None;
     Format.label := fun opts =>
       match opt_get opts Opts.name with
       | Some name => name
       | None => DEFAULT_CUSTOM_FORMAT_NAME
       end;
     Format.transforms := fun _ => text_only
       {| TextTransform.start := None;
          TextTransform.windowStart := None;
          TextTransform.tab :=
            returns (fun c =>
              interpolate (Tab.title (TabCtx.tab c)) ++ LF
                ++ interpolate (Tab.url (TabCtx.tab c)));
          TextTransform.tabDelimiter := None;
          TextTransform.windowEnd := None;
          TextTransform.windowDelimiter := None;
          TextTransform.end_ := None |};
     Format.opts := Some
       {| Opts.separator := None;
          Opts.properties := None;
          Opts.pretty := None;
          Opts.indent := None;
          Opts.includeHeader := None;
          Opts.name := Some DEFAULT_CUSTOM_FORMAT_NAME;
          Opts.template := Some
            {| Template.header := "[date][n][n]";
               Template.tab := "[#]) Title: [title][n]   URL:   [url]";
               Template.delimiter := "[n][n]";
               Template.footer := "" |} |} |}.

(** [format.id === id] *)
Definition has_id (id : string) (format : Format) : bool :=
  match Format.id format with
  | Some i => String.eqb i id
  | None => false
  end.

(** [builtinFormats.map(({ id }) => id)] *)
Definition ids_of (formats : list Format) : list string :=
  flat_map (fun format =>
              match Format.id format with
              | Some i => [i]
              | None => []
              end) formats.

Definition builtinFormatIds : list string := ids_of builtinFormats.

Definition isCustomFormatId (id : string) : bool :=
  String.prefix "custom-" id.

(** ['opts' in format] *)
Definition declares_opts (format : Format) : bool :=
  match Format.opts format with
  | Some _ => true
  | None => false
  end.

Definition builtinFormatWithOptsIds : list string :=
  ids_of (filter declares_opts builtinFormats).

Definition isBuiltinFormatWithOptsId (id : string) : bool :=
  existsb (String.eqb id) builtinFormatWithOptsIds.

Definition isFormatWithOptsId (id : string) : bool :=
  isBuiltinFormatWithOptsId id || isCustomFormatId id.

(** [getFormat] returns what the conditional expression evaluates to:
    the template, the entry found, or [undefined] ([None]) when
    [find] finds none.  It has no [throw]. *)
Definition getFormat (id : string) : completion (option Format) :=
  Normal (if isCustomFormatId id
          then Some customFormat
          else find (has_id id) builtinFormats).

End Formats.

(** The earlier revision of the file declares the title default in the
    parameter list: [title = '(untitled)'] applies to [undefined] only. *)
Module EarlierRevision.

Definition getTitleUrlText (url title separator : option string) : string :=
  let title :=
    match title with
    | Some t => t
    | None => "(untitled)"
    end in
  let separator :=
    match separator with
    | Some s => s
    | None => DEFAULT_TITLE_URL_1_LINE_SEPARATOR
    end in
  title ++ separator ++ interpolate url.

End EarlierRevision.

(** ** The render pipeline

    The module that walks the windows and tabs and calls the transform
    callbacks is not part of the sources at hand. *)

(** Modelled from the spec: the scope of a copy action (section 3,
    "Scope"); the code that selects it is missing. *)
Inductive Scope : Type :=
| ScopeTab       (* a single tab, no window wrapping *)
| ScopeWindow    (* one window's tabs *)
| ScopeWindows.  (* multiple windows, each wrapped with window-level boundaries *)

(** The position of the pipeline that a fragment of the output was
    emitted at. *)
Inductive position : Type :=
| AtStart
| AtWindowStart
| AtTab
| AtTabDelimiter
| AtWindowEnd
| AtWindowDelimiter
| AtEnd.

Definition position_eq_dec (p q : position) : {p = q} + {p <> q}.
Proof. decide equality. Defined.

(** One step of the pipeline: a callback to call with its context, or a
    delimiter to insert. *)
Inductive action : Type :=
| CallStart (c : StartCtx.t)
| CallWindowStart (c : WindowCtx.t)
| CallTab (c : TabCtx.t)
| InsertTabDelimiter
| CallWindowEnd (c : WindowCtx.t)
| InsertWindowDelimiter
| CallEnd (c : EndCtx.t).

Definition position_of (a : action) : position :=
  match a with
  | CallStart _ => AtStart
  | CallWindowStart _ => AtWindowStart
  | CallTab _ => AtTab
  | InsertTabDelimiter => AtTabDelimiter
  | CallWindowEnd _ => AtWindowEnd
  | InsertWindowDelimiter => AtWindowDelimiter
  | CallEnd _ => AtEnd
  end.

(** A rendered representation, fragment by fragment. *)
Definition fragments : Type := list (position * string).

Definition positions (out : fragments) : list position := map fst out.

(** The rendered string: the fragments concatenated in order. *)
Definition text_of (out : fragments) : string :=
  String.concat "" (map snd out).

Definition count_at (p : position) (out : fragments) : nat :=
  count_occ position_eq_dec (positions out) p.

(** Modelled from the spec: the render pipeline of section 4.3, whose
    source file is missing.  Steps 1 to 4 fix which callbacks are called,
    in which order and with which sequence numbers, and where the two
    delimiters go; the callbacks then turn each step into a fragment. *)
Module Pipeline.

(** Modelled from the spec: only the [windows] scope wraps each window
    with window-level boundaries (section 3); it is the scope that the
    context types of [format.ts] call ['window'], the others being
    tab-only. *)
Definition window_boundaries (scope : Scope) : bool :=
  match scope with
  | ScopeWindows => true
  | ScopeTab | ScopeWindow => false
  end.

(** Modelled from the spec: step 1 emits [start] when the scope is
    [windows] or [window]. *)
Definition calls_start (scope : Scope) : bool :=
  match scope with
  | ScopeWindows | ScopeWindow => true
  | ScopeTab => false
  end.

(** Modelled from the spec: the [scopeType] that the contexts carry,
    ['window'] for the scope with window boundaries and ['tab'] for the
    tab-only ones. *)
Definition scopeType_of (scope : Scope) : ScopeType :=
  if window_boundaries scope then ScopeTypeWindow else ScopeTypeTab.

(** Modelled from the spec: [windowCount] is carried when the scope is
    multi-window (step 1). *)
Definition windowCount_of (scope : Scope) (windows : list Window.t)
  : option nat :=
  if window_boundaries scope then Some (List.length windows) else None.

(** Modelled from the spec: [tabCount], the number of tabs in scope. *)
Definition tabCount_of (windows : list Window.t) : nat :=
  list_sum (map (fun w => List.length (Window.tabs w)) windows).

(** Modelled from the spec: steps that apply only when the scope has
    window boundaries (steps 2a, 2c and 2d). *)
Definition when_windows (scope : Scope) (todo : list action)
  : list action :=
  if window_boundaries scope then todo else [].

(** Modelled from the spec: the sequence numbers of a tab within its
    window and of its window; the context type of [format.ts] has them
    missing for tab-only scopes. *)
Definition seq_of (scope : Scope) (n : nat) : option nat :=
  if window_boundaries scope then Some n else None.

(** Modelled from the spec: step 2b, one [tab] call per tab with its
    1-based sequence numbers, the tab delimiter between two successive
    tabs. *)
Fixpoint tab_steps (scope : Scope) (windowSeq windowTabSeq globalSeq : nat)
    (tabs : list Tab.t) : list action :=
  match tabs with
  | [] => []
  | tab :: rest =>
      CallTab {| TabCtx.tab := tab;
                 TabCtx.globalSeq := globalSeq;
                 TabCtx.windowTabSeq := seq_of scope windowTabSeq;
                 TabCtx.windowSeq := seq_of scope windowSeq |}
      :: match rest with
         | [] => []
         | _ :: _ =>
             InsertTabDelimiter
             :: tab_steps scope windowSeq (S windowTabSeq) (S globalSeq) rest
         end
  end.

(** Modelled from the spec: steps 2a to 2c, one window block. *)
Definition window_steps (scope : Scope) (seq globalSeq : nat)
    (window : Window.t) : list action :=
  let ctx := {| WindowCtx.window := window;
                WindowCtx.seq := seq;
                WindowCtx.windowTabCount :=
                  List.length (Window.tabs window) |} in
  when_windows scope [CallWindowStart ctx]
    ++ tab_steps scope seq 1 globalSeq (Window.tabs window)
    ++ when_windows scope [CallWindowEnd ctx].

(** Modelled from the spec: step 2d, the window blocks in order, the
    window delimiter between two successive blocks. *)
Fixpoint windows_steps (scope : Scope) (seq globalSeq : nat)
    (windows : list Window.t) : list action :=
  match windows with
  | [] => []
  | window :: rest =>
      window_steps scope seq globalSeq window
      ++ match rest with
         | [] => []
         | _ :: _ =>
             when_windows scope [InsertWindowDelimiter]
             ++ windows_steps scope (S seq)
                  (globalSeq + List.length (Window.tabs window)) rest
         end
  end.

(** Modelled from the spec: steps 1 to 4, [start], the window blocks,
    [end]. *)
Definition steps (formatName : string) (scope : Scope)
    (windows : list Window.t) : list action :=
  (if calls_start scope
   then [CallStart {| StartCtx.formatName := formatName;
                      StartCtx.windowCount := windowCount_of scope windows;
                      StartCtx.tabCount := tabCount_of windows;
                      StartCtx.scopeType := scopeType_of scope |}]
   else [])
  ++ windows_steps scope 1 1 windows
  ++ [CallEnd {| EndCtx.formatName := formatName;
                 EndCtx.windowCount := windowCount_of scope windows;
                 EndCtx.tabCount := tabCount_of windows |}].

(** Modelled from the spec: a missing callback emits nothing for its
    position (section 3) and an error raised by a callback propagates
    (section 7); an [undefined] output joins as the empty string. *)
Definition emit {C : Type} (cb : option (callback C)) (c : C)
  : completion string :=
  match cb with
  | None => Normal ""
  | Some f =>
      v <- f c ;;
      Normal (match v with
              | Some s => s
              | None => ""
              end)
  end.

(** Modelled from the spec: the delimiters default to the empty
    string. *)
Definition delimiter (d : option string) : string :=
  match d with
  | Some s => s
  | None => ""
  end.

(** Modelled from the spec: the fragment of one step. *)
Definition run_step (t : TextTransform.t) (a : action)
  : completion string :=
  match a with
  | CallStart c => emit (TextTransform.start t) c
  | CallWindowStart c => emit (TextTransform.windowStart t) c
  | CallTab c => emit (TextTransform.tab t) c
  | InsertTabDelimiter => Normal (delimiter (TextTransform.tabDelimiter t))
  | CallWindowEnd c => emit (TextTransform.windowEnd t) c
  | InsertWindowDelimiter =>
      Normal (delimiter (TextTransform.windowDelimiter t))
  | CallEnd c => emit (TextTransform.end_ t) c
  end.

(** Modelled from the spec: the steps in order, each fragment tagged
    with its position; the first error ends the rendering. *)
Fixpoint run (t : TextTransform.t) (todo : list action)
  : completion fragments :=
  match todo with
  | [] => Normal []
  | a :: rest =>
      s <- run_step t a ;;
      out <- run t rest ;;
      Normal ((position_of a, s) :: out)
  end.

(** Modelled from the spec: one representation, fragment by
    fragment. *)
Definition render_representation (t : TextTransform.t)
    (formatName : string) (scope : Scope) (windows : list Window.t)
  : completion fragments :=
  run t (steps formatName scope windows).

(** Modelled from the spec: the result of [render],
    [{ text, html?, other? }]. *)
Record Rendered (Nxs : Type) : Type := mkRendered {
  text : string;
  html : option string;
  other : option Nxs
}.

(** Modelled from the spec: [render(transforms, scopeType, windows)],
    [text] always, [html] and the structured representation only if
    declared. *)
Definition render {Nxs : Type} (transforms : Transforms.t Nxs)
    (formatName : string) (scope : Scope) (windows : list Window.t)
  : completion (Rendered Nxs) :=
  text <- render_representation (Transforms.text transforms)
            formatName scope windows ;;
  html <- match Transforms.html transforms with
          | Some t =>
              out <- render_representation t formatName scope windows ;;
              Normal (Some (text_of out))
          | None => Normal None
          end ;;
  Normal {| text := text_of text;
            html := html;
            other := option_map (fun f => f windows)
                       (Transforms.nxs transforms) |}.

End Pipeline.

(** ** A concrete set of collaborators

    English messages and small stand-ins for the utility modules, used
    to evaluate the formats on examples.  The theorems below hold for
    every [Externals]; nothing is proved about this one. *)
Module Sample.

Definition upper (a : ascii) : ascii :=
  let n := nat_of_ascii a in
  if Nat.leb 97 n && Nat.leb n 122 then ascii_of_nat (n - 32) else a.

Definition sentence_case (s : string) : string :=
  match s with
  | EmptyString => EmptyString
  | String a rest => String (upper a) rest
  end.

Fixpoint spaces (n : nat) : string :=
  match n with
  | O => ""
  | S k => " " ++ spaces k
  end.

Fixpoint indent_lines (pad : string) (s : string) : string :=
  match s with
  | EmptyString => EmptyString
  | String a rest =>
      if Ascii.eqb a "010" then String a (pad ++ indent_lines pad rest)
      else String a (indent_lines pad rest)
  end.

Definition indent_by (s : string) (n : Z) : string :=
  spaces (Z.to_nat n) ++ indent_lines (spaces (Z.to_nat n)) s.

Fixpoint encode_html (s : string) : string :=
  match s with
  | EmptyString => EmptyString
  | String a rest =>
      (if Ascii.eqb a "&" then "&amp;"
       else if Ascii.eqb a "<" then "&lt;"
       else if Ascii.eqb a ">" then "&gt;"
       else if Ascii.eqb a "034" then "&quot;"
       else String a "") ++ encode_html rest
  end.

Definition csv_field (v : jsval) : string :=
  match v with
  | JsString s => DQUOTE ++ replace_all "034" (DQUOTE ++ DQUOTE) s ++ DQUOTE
  | _ => ""
  end.

Definition stringify_row (row : list jsval) : string :=
  String.concat "," (map csv_field row).

Definition quoted (s : string) : string :=
  DQUOTE ++ replace_all "034" ("\" ++ DQUOTE) s ++ DQUOTE.

(** The compact form, whatever the indentation asked for. *)
Fixpoint stringify (v : json) : string :=
  match v with
  | JStr s => quoted s
  | JArr items => "[" ++ String.concat "," (map stringify items) ++ "]"
  | JObj members =>
      "{" ++ String.concat ","
               (map (fun m => quoted (fst m) ++ ":" ++ stringify (snd m))
                    members)
          ++ "}"
  end.

Fixpoint digits (acc : option Z) (s : string) : option Z :=
  match s with
  | String a rest =>
      let n := nat_of_ascii a in
      if Nat.leb 48 n && Nat.leb n 57
      then digits (Some (10 * match acc with Some v => v | None => 0 end
                         + Z.of_nat (n - 48))%Z) rest
      else acc
  | EmptyString => acc
  end.

Definition parse_int (s : option string) (radix : Z) : option Z :=
  match s with
  | Some text => digits None text
  | None => None
  end.

Definition english : Externals :=
  {| NxsMimeContent := unit;
     intl_link := "link";
     intl_url := "URL";
     intl_title := "title";
     intl_window := "window";
     intl_htmlTable := "HTML table";
     intl_conjoin := fun a b => a ++ " and " ++ b;
     sentenceCase := sentence_case;
     indent := indent_by;
     encodeHtml := encode_html;
     stringifyCSVRow := stringify_row;
     JSON_stringify := fun v _ => stringify v;
     parseInt := parse_int |}.

Definition tab (title url : option string) : Tab.t :=
  Tab.mk None title url None.

Definition window (tabs : list Tab.t) : Window.t :=
  Window.mk None tabs.

(** A tab context, an options overlay and two windows to evaluate the
    formats on. *)
Definition ctx (tab : Tab.t) : TabCtx.t :=
{| TabCtx.tab := tab;
   TabCtx.globalSeq := 1;
   TabCtx.windowTabSeq := Some 1;
   TabCtx.windowSeq := Some 1 |}.

Definition bar : option Opts.t :=
Some {| Opts.separator := Some " | ";
        Opts.properties := None;
        Opts.pretty := None;
        Opts.indent := None;
        Opts.includeHeader := None;
        Opts.name := None;
        Opts.template := None |}.

Definition two_windows : list Window.t :=
[window [tab (Some "A") (Some "http://a"); tab None (Some "http://b")];
 window [tab (Some "C") (Some "http://c")]].

End Sample.


(** ** What the claims say, in the terms of the claims *)

(** The separator in force: the configured one, [": "] without one. *)
Definition configured_separator (opts : option Opts.t) : string :=
  match opt_get opts Opts.separator with
  | Some s => s
  | None => ": "
  end.

(** The title position of the title-and-url formats. *)
Definition title_or_untitled (title : option string) : string :=
  if truthy title then interpolate title else "(untitled)".

(** Every character for which [special] holds gets a backslash in front
    of it; no other character changes. *)
Fixpoint backslash_escape (special : ascii -> bool) (s : string) : string :=
  match s with
  | EmptyString => EmptyString
  | String a rest =>
      if special a
      then String "\" (String a (backslash_escape special rest))
      else String a (backslash_escape special rest)
  end.

Definition is_bracket (a : ascii) : bool :=
  Ascii.eqb a "[" || Ascii.eqb a "]".

Definition is_paren (a : ascii) : bool :=
  Ascii.eqb a "(" || Ascii.eqb a ")".

(** The text tab callback of a format, called on a context. *)
Definition text_tab {Nxs : Type} (format : Format.t Nxs)
    (opts : option Opts.t) (c : TabCtx.t)
  : option (completion (option string)) :=
  invoke (TextTransform.tab (Transforms.text (Format.transforms format opts))) c.

(** The html tab callback of a format, when it has an html
    representation. *)
Definition html_tab {Nxs : Type} (format : Format.t Nxs)
    (opts : option Opts.t) (c : TabCtx.t)
  : option (completion (option string)) :=
  match Transforms.html (Format.transforms format opts) with
  | Some t => invoke (TextTransform.tab t) c
  | None => None
  end.

(** The property of a tab that a key of the json options names. *)
Definition tab_property (key : string) (tab : Tab.t) : option string :=
  if String.eqb key "title" then Tab.title tab
  else if String.eqb key "url" then Tab.url tab
  else if String.eqb key "favIconUrl" then Tab.favIconUrl tab
  else None.

Definition tab_property_keys : list string := ["title"; "url"; "favIconUrl"].

(** The keys of an object literal. *)
Definition keys (members : list (string * json)) : list string :=
  map fst members.

(** The selection made by the [properties] option as the specification
    words it: the listed properties, title and url when none is
    configured. *)
Definition selection_as_specified (opts : option Opts.t) : list string :=
  match opt_get opts Opts.properties with
  | Some l => l
  | None => ["title"; "url"]
  end.

(** [d] stands strictly between an [a] and a [b]: wherever it occurs in
    [l], an [a] comes immediately before it and a [b] immediately after
    it; in particular it is never first and never last. *)
Definition strictly_between (d a b : position) (l : list position) : Prop :=
  forall before after,
    l = (before ++ d :: after)%list ->
    (exists x, before = (x ++ [a])%list) /\ (exists y, after = b :: y).

(** The positions that a list of steps fills. *)
Definition slots (todo : list action) : list position :=
  map position_of todo.

(** The number of places between successive tabs of the same window. *)
Definition gaps_between_tabs (windows : list Window.t) : nat :=
  list_sum (map (fun w => pred (List.length (Window.tabs w))) windows).

(** No callback of the transform raises an error. *)
Definition never_throws (t : TextTransform.t) : Prop :=
  (forall f c, TextTransform.start t = Some f -> ~ fails (f c))
  /\ (forall f c, TextTransform.windowStart t = Some f -> ~ fails (f c))
  /\ (forall f c, TextTransform.tab t = Some f -> ~ fails (f c))
  /\ (forall f c, TextTransform.windowEnd t = Some f -> ~ fails (f c))
  /\ (forall f c, TextTransform.end_ t = Some f -> ~ fails (f c)).

(** A transform without callbacks: commas between tabs, semicolons
    between windows. *)
Definition delimiters_only : TextTransform.t :=
  {| TextTransform.start := None;
     TextTransform.windowStart := None;
     TextTransform.tab := None;
     TextTransform.tabDelimiter := Some ",";
     TextTransform.windowEnd := None;
     TextTransform.windowDelimiter := Some ";";
     TextTransform.end_ := None |}.

(** ** The options page ([Options.tsx]) *)

(** The fields of a [ConfiguredFormat] that the options page reads. *)
Module ConfiguredFormat.
Record t : Type := mk {
  id : string;
  visible : bool
}.
End ConfiguredFormat.

(** Messages and key labels imported by [Options.tsx] from [@/intl] and
    [@/keyboard]. *)
Class OptionsExternals : Type := {
  intl_hidden : string;
  intl_default : string;
  intl_holdWhenCopying : string -> string;
  intl_genericFormatDeleteError : string;
  intl_minVisibleFormatDeleteError : string;
  getSecondaryActionModifierKeyLabel : string;
  getTernaryActionModifierKeyLabel : string
}.

(** [l.findIndex(p)]; [None] is -1. *)
Fixpoint findIndex {A : Type} (p : A -> bool) (l : list A) : option nat :=
  match l with
  | [] => None
  | x :: rest =>
      if p x then Some 0
      else match findIndex p rest with
           | Some i => Some (S i)
           | None => None
           end
  end.

(** How [removeCustomFormat] (of [@/storage]) ends. *)
Inductive RemoveOutcome : Type :=
| Removed
| MinVisibleFormatExceededError
| OtherError.

(** The state of the format options editor: the id whose options are
    being edited, and the error shown. *)
Module Editor.
Record t : Type := mk {
  optsEditFormatId : option string;
  editError : string
}.
End Editor.

Section Options.

Context {ext : Externals} {page : OptionsExternals}.

(** [configuredFormats.filter(({ visible }) => visible)] *)
Definition visibleFormats (configuredFormats : list ConfiguredFormat.t)
  : list ConfiguredFormat.t :=
  filter ConfiguredFormat.visible configuredFormats.

Definition isMinVisibleFormatCount
    (configuredFormats : list ConfiguredFormat.t) : bool :=
  Nat.leb (List.length (visibleFormats configuredFormats))
    MIN_VISIBLE_FORMAT_COUNT.

(** The [disabled] property of a format's toggle. *)
Definition toggle_disabled (format : ConfiguredFormat.t)
    (configuredFormats : list ConfiguredFormat.t) : bool :=
  ConfiguredFormat.visible format && isMinVisibleFormatCount configuredFormats.

(** [None] is the [undefined] of a function that ends without
    [return]. *)
Definition getFormatDescription (format : ConfiguredFormat.t)
    (visibleFormats : list ConfiguredFormat.t) : option string :=
  if negb (ConfiguredFormat.visible format)
  then Some (sentenceCase intl_hidden)
  else
    match findIndex
            (fun f => String.eqb (ConfiguredFormat.id f)
                        (ConfiguredFormat.id format))
            visibleFormats with
    | Some 0 => Some (sentenceCase intl_default)
    | Some 1 =>
        Some (sentenceCase
                (intl_holdWhenCopying getSecondaryActionModifierKeyLabel))
    | Some 2 =>
        Some (sentenceCase
                (intl_holdWhenCopying getTernaryActionModifierKeyLabel))
    | _ => None
    end.

Definition closeFormatOptsEditor (st : Editor.t) : Editor.t :=
  {| Editor.optsEditFormatId := None; Editor.editError := "" |}.

Definition setEditError (message : string) (st : Editor.t) : Editor.t :=
  {| Editor.optsEditFormatId := Editor.optsEditFormatId st;
     Editor.editError := message |}.

(** [deleteFormat]: the editor state it leaves, and the ids it passed
    to [removeCustomFormat]. *)
Definition deleteFormat (removeCustomFormat : string -> RemoveOutcome)
    (formatId : string) (st : Editor.t) : Editor.t * list string :=
  if isCustomFormatId formatId
  then
    match removeCustomFormat formatId with
    | Removed => (closeFormatOptsEditor st, [formatId])
    | MinVisibleFormatExceededError =>
        (setEditError (sentenceCase intl_minVisibleFormatDeleteError) st,
         [formatId])
    | OtherError =>
        (setEditError (sentenceCase intl_genericFormatDeleteError) st,
         [formatId])
    end
  else (setEditError (sentenceCase intl_genericFormatDeleteError) st, []).

End Options.

(** ** Further notions used to state properties *)

(** Every character for which [special] holds comes directly after a
    backslash; [escaped] tells whether the previous character was one. *)
Fixpoint guarded (special : ascii -> bool) (escaped : bool) (s : string)
  : bool :=
  match s with
  | EmptyString => true
  | String a rest =>
      (if special a then escaped else true)
      && guarded special (Ascii.eqb a "\") rest
  end.

(** Reading an escaped text back: a backslash directly before a special
    character is dropped. *)
Fixpoint unescape (special : ascii -> bool) (s : string) : string :=
  match s with
  | EmptyString => EmptyString
  | String a rest =>
      match rest with
      | String b rest' =>
          if Ascii.eqb a "\" && special b
          then String b (unescape special rest')
          else String a (unescape special rest)
      | EmptyString => String a EmptyString
      end
  end.

(** The number of commas of a text: one less than the number of names
    of a header row. *)
Fixpoint commas (s : string) : nat :=
  match s with
  | EmptyString => 0
  | String a rest => (if Ascii.eqb a "," then 1 else 0) + commas rest
  end.

(** Does the tab context carry a window sequence number that counts as
    one ([windowSeq ? ... : ...])? *)
Definition has_windowSeq (c : TabCtx.t) : bool :=
  match TabCtx.windowSeq c with
  | Some (S _) => true
  | _ => false
  end.

(** Does the text contain an opening bracket? *)
Fixpoint has_open_bracket (s : string) : bool :=
  match s with
  | EmptyString => false
  | String a rest => Ascii.eqb a "[" || has_open_bracket rest
  end.

(** Is the last character of the text a closing brace? *)
Fixpoint ends_with_brace (s : string) : bool :=
  match s with
  | EmptyString => false
  | String a EmptyString => Ascii.eqb a "}"
  | String _ rest => ends_with_brace rest
  end.

(** Is the text made of spaces and line feeds only? *)
Fixpoint blank (s : string) : bool :=
  match s with
  | EmptyString => true
  | String a rest => (Ascii.eqb a " " || Ascii.eqb a "010") && blank rest
  end.

(** The options of a json format with the given [properties] list. *)
Definition json_opts (properties : option (list string))
    (pretty : option bool) (indent : option string) : option Opts.t :=
  Some {| Opts.separator := None;
          Opts.properties := properties;
          Opts.pretty := pretty;
          Opts.indent := indent;
          Opts.includeHeader := None;
          Opts.name := None;
          Opts.template := None |}.

(** ** A concrete options page

    English messages and a list of configured formats to evaluate the
    options page on. *)
Module SamplePage.

Definition page : OptionsExternals :=
{| intl_hidden := "hidden";
   intl_default := "default";
   intl_holdWhenCopying := fun key => "hold " ++ key ++ " when copying";
   intl_genericFormatDeleteError := "could not delete format";
   intl_minVisibleFormatDeleteError := "too few visible formats";
   getSecondaryActionModifierKeyLabel := "Ctrl";
   getTernaryActionModifierKeyLabel := "Shift + Ctrl" |}.

(** Five configured formats, the third one hidden. *)
Definition configured : list ConfiguredFormat.t :=
[ConfiguredFormat.mk "link" true; ConfiguredFormat.mk "url" true;
 ConfiguredFormat.mk "csv" false; ConfiguredFormat.mk "json" true;
 ConfiguredFormat.mk "custom-1a2b" true].

End SamplePage.

(** ** Properties *)

Section Properties.

Context {ext : Externals}.

(** *** Strings *)

Lemma prefix_append (p rest : string) : String.prefix p (p ++ rest) = true.
Proof.
  induction p as [|x p IH]; simpl.
  - now destruct rest.
  - destruct (ascii_dec x x) as [_|ne]; [exact IH | now elim ne].
Qed.

Lemma prefix_split (p s : string) :
  String.prefix p s = true -> exists rest, s = p ++ rest.
Proof.
  revert s; induction p as [|x p IH]; intros s H.
  - now exists s.
  - destruct s as [|y s]; simpl in H; [discriminate|].
    destruct (ascii_dec x y) as [->|]; [|discriminate].
    destruct (IH _ H) as [rest ->]. now exists rest.
Qed.

Lemma truthy_some (v : option string) :
  truthy v = true -> exists s, v = Some s /\ s <> "".
Proof.
  destruct v as [[|a s]|]; simpl; try discriminate.
  intros _. exists (String a s). split; [reflexivity | discriminate].
Qed.

Lemma truthy_nonempty (s : string) : s <> "" -> truthy (Some s) = true.
Proof. destruct s; [now intros H; elim H | reflexivity]. Qed.

(** *** titleUrl1Line and titleUrl2Line *)

Lemma getTitleUrlText_eq (u : string) (title separator : option string) :
  getTitleUrlText (Some u) title separator
  = title_or_untitled title
      ++ match separator with Some s => s | None => ": " end ++ u.
Proof.
  unfold getTitleUrlText, title_or_untitled, js_or.
  destruct (truthy title); reflexivity.
Qed.

(** C3. For a tab with a non-empty url the titleUrl1Line text tab output
    is the title, the configured separator ([": "] by default) and the
    url, in that order; a missing (absent or empty) title is replaced
    by the literal ["(untitled)"].  With separator [" | "] the tab
    [{title: 'Example', url: 'http://x'}] renders as
    ["Example | http://x"], and without a title as
    ["(untitled) | http://x"].  The [getTitleUrlText] of the earlier
    revision gives the same text for a title that is non-empty or
    absent. *)
Theorem titleUrl1Line_tab_output :
  forall (opts : option Opts.t) (c : TabCtx.t) (u : string),
    Tab.url (TabCtx.tab c) = Some u ->
    u <> "" ->
    (forall t, Tab.title (TabCtx.tab c) = Some t -> t <> "" ->
       text_tab titleUrl1Line opts c
       = Some (Normal (Some (t ++ configured_separator opts ++ u))))
    /\ (truthy (Tab.title (TabCtx.tab c)) = false ->
        text_tab titleUrl1Line opts c
        = Some (Normal (Some ("(untitled)" ++ configured_separator opts ++ u))))
    /\ (forall custom c',
          opt_get custom Opts.separator = Some " | " ->
          Tab.url (TabCtx.tab c') = Some "http://x" ->
          (Tab.title (TabCtx.tab c') = Some "Example" ->
           text_tab titleUrl1Line custom c'
           = Some (Normal (Some "Example | http://x")))
          /\ (Tab.title (TabCtx.tab c') = None ->
              text_tab titleUrl1Line custom c'
              = Some (Normal (Some "(untitled) | http://x"))))
    /\ (forall t, Tab.title (TabCtx.tab c) = Some t -> t <> "" ->
          EarlierRevision.getTitleUrlText (Some u) (Some t)
            (opt_get opts Opts.separator)
          = t ++ configured_separator opts ++ u)
    /\ EarlierRevision.getTitleUrlText (Some u) None
         (opt_get opts Opts.separator)
       = "(untitled)" ++ configured_separator opts ++ u.
Proof.
  intros opts c u Hu _.
  assert (step : forall o c0 v,
             Tab.url (TabCtx.tab c0) = Some v ->
             text_tab titleUrl1Line o c0
             = Some (Normal (Some (title_or_untitled (Tab.title (TabCtx.tab c0))
                                     ++ configured_separator o ++ v)))).
  { intros o c0 v Hv. unfold text_tab; simpl.
    rewrite Hv, getTitleUrlText_eq. reflexivity. }
  split; [|split; [|split; [|split]]].
  - intros t Ht Hne. rewrite (step _ _ _ Hu), Ht.
    unfold title_or_untitled. now rewrite (truthy_nonempty Hne).
  - intros Hf. rewrite (step _ _ _ Hu).
    unfold title_or_untitled. now rewrite Hf.
  - intros custom c' Hsep Hx. split; intros Ht;
      rewrite (step _ _ _ Hx), Ht; unfold configured_separator;
      now rewrite Hsep.
  - intros t _ _. reflexivity.
  - reflexivity.
Qed.

(** C7. For a tab with a non-empty url and any options overlay, the
    titleUrl2Line text tab output is the title (["(untitled)"] when it
    is missing), a line feed and the url: the separator of the overlay
    plays no part. *)
Theorem titleUrl2Line_tab_output :
  forall (opts : option Opts.t) (c : TabCtx.t) (u : string),
    Tab.url (TabCtx.tab c) = Some u ->
    u <> "" ->
    text_tab titleUrl2Line opts c
    = Some (Normal (Some (title_or_untitled (Tab.title (TabCtx.tab c))
                            ++ LF ++ u))).
Proof.
  intros opts c u Hu _. unfold text_tab; simpl.
  rewrite Hu, getTitleUrlText_eq. reflexivity.
Qed.

(** *** markdown *)

Lemma replace_brackets (s : string) :
  replace_all "]" "\]" (replace_all "[" "\[" s)
  = backslash_escape is_bracket s.
Proof.
  induction s as [|a s IH]; [reflexivity|].
  cbn [backslash_escape]. rewrite <- IH. unfold is_bracket.
  destruct (Ascii.eqb_spec a "[") as [->|Ho].
  - reflexivity.
  - destruct (Ascii.eqb_spec a "]") as [->|Hc].
    + reflexivity.
    + cbn [replace_all orb].
      destruct (Ascii.eqb_spec a "[") as [|_]; [contradiction|].
      cbn [replace_all].
      destruct (Ascii.eqb_spec a "]") as [|_]; [contradiction|].
      reflexivity.
Qed.

Lemma replace_parens (s : string) :
  replace_all ")" "\)" (replace_all "(" "\(" s)
  = backslash_escape is_paren s.
Proof.
  induction s as [|a s IH]; [reflexivity|].
  cbn [backslash_escape]. rewrite <- IH. unfold is_paren.
  destruct (Ascii.eqb_spec a "(") as [->|Ho].
  - reflexivity.
  - destruct (Ascii.eqb_spec a ")") as [->|Hc].
    + reflexivity.
    + cbn [replace_all orb].
      destruct (Ascii.eqb_spec a "(") as [|_]; [contradiction|].
      cbn [replace_all].
      destruct (Ascii.eqb_spec a ")") as [|_]; [contradiction|].
      reflexivity.
Qed.

(** C4, as amended. For a tab whose url is present, the markdown text
    tab output is ["[T](U)"]: [T] is the title, or the url when the
    title is missing, with a backslash put before every ["["] and
    ["]"] and nothing else changed; [U] is the url with a backslash
    put before every ["("] and [")"] and nothing else changed. *)
Theorem markdown_tab_output :
  forall (opts : option Opts.t) (c : TabCtx.t) (u : string),
    Tab.url (TabCtx.tab c) = Some u ->
    text_tab markdown opts c
    = Some (Normal (Some
        ("[" ++ backslash_escape is_bracket
                  (if truthy (Tab.title (TabCtx.tab c))
                   then interpolate (Tab.title (TabCtx.tab c))
                   else u)
         ++ "](" ++ backslash_escape is_paren u ++ ")"))).
Proof.
  intros opts c u Hu. unfold text_tab; simpl. unfold markdown_tab, js_or.
  rewrite Hu.
  destruct (truthy (Tab.title (TabCtx.tab c))) eqn:Ht.
  - destruct (truthy_some _ Ht) as (t & -> & _). simpl.
    now rewrite replace_brackets, replace_parens.
  - simpl. now rewrite replace_brackets, replace_parens.
Qed.

(** *** json *)

Lemma json_member_keys (opts : option Opts.t) (key k : string)
    (v : option string) :
  In k (keys (json_member opts key v))
  <-> k = key /\ truthy v = true
      /\ (noProperties opts = true \/ properties_include opts key = true).
Proof.
  unfold json_member.
  destruct (truthy v); simpl.
  - destruct (noProperties opts); simpl.
    + intuition auto.
    + destruct (properties_include opts key); simpl;
        intuition (auto; discriminate).
  - intuition (auto; discriminate).
Qed.

(** C6, as amended. The object that the json text tab callback
    stringifies has a property (title, url or favIconUrl) if and only
    if that property is present and non-empty on the tab and either
    the [properties] option is missing or empty, in which case all
    three are eligible, or it lists the property.  The declared
    default options list title and url, so with them favIconUrl is
    left out. *)
Theorem json_tab_properties :
  forall (opts : option Opts.t) (c : TabCtx.t) (key : string),
    In key tab_property_keys ->
    (exists n,
       text_tab json_format opts c
       = Some (Normal (Some
           (json_newline opts
            ++ indent
                 (JSON_stringify
                    (JObj (json_tab_object opts (TabCtx.tab c)))
                    (json_indentSize opts)) n))))
    /\ (In key (keys (json_tab_object opts (TabCtx.tab c)))
        <-> truthy (tab_property key (TabCtx.tab c)) = true
            /\ (noProperties opts = true
                \/ properties_include opts key = true))
    /\ (noProperties opts = true
        <-> opt_get opts Opts.properties = None
            \/ opt_get opts Opts.properties = Some [])
    /\ opt_get (Format.opts json_format) Opts.properties
       = Some ["title"; "url"]
    /\ ~ In "favIconUrl"
         (keys (json_tab_object (Format.opts json_format) (TabCtx.tab c))).
Proof.
  intros opts c key Hkey.
  split; [eexists; reflexivity|].
  split.
  { unfold json_tab_object, keys. rewrite !map_app, !in_app_iff.
    fold (keys (json_member opts "title" (Tab.title (TabCtx.tab c)))).
    fold (keys (json_member opts "url" (Tab.url (TabCtx.tab c)))).
    fold (keys (json_member opts "favIconUrl"
                  (Tab.favIconUrl (TabCtx.tab c)))).
    rewrite !json_member_keys.
    simpl in Hkey.
    destruct Hkey as [<-|[<-|[<-|[]]]]; unfold tab_property; simpl;
      intuition (auto; discriminate). }
  split.
  { unfold noProperties.
    destruct (opt_get opts Opts.properties) as [[|x l]|];
      intuition (auto; discriminate). }
  split; [reflexivity|].
  unfold json_tab_object, keys. rewrite !map_app, !in_app_iff.
  fold (keys (json_member (Format.opts json_format) "title"
                (Tab.title (TabCtx.tab c)))).
  fold (keys (json_member (Format.opts json_format) "url"
                (Tab.url (TabCtx.tab c)))).
  fold (keys (json_member (Format.opts json_format) "favIconUrl"
                (Tab.favIconUrl (TabCtx.tab c)))).
  rewrite !json_member_keys. simpl.
  intuition (auto; discriminate).
Qed.

(** C6 as stated fails: with an options object whose [properties] list
    is empty, the tab object carries favIconUrl (and title and url)
    although the option selects none of them. *)
Lemma json_tab_empty_selection :
  let tab := Tab.mk (Some 7) (Some "Example") (Some "http://x")
               (Some "http://x/icon.png") in
  let opts := Some {| Opts.separator := None;
                      Opts.properties := Some [];
                      Opts.pretty := Some true;
                      Opts.indent := Some "3";
                      Opts.includeHeader := None;
                      Opts.name := None;
                      Opts.template := None |} in
  ~ (In "favIconUrl" (keys (json_tab_object opts tab))
     <-> truthy (tab_property "favIconUrl" tab) = true
         /\ In "favIconUrl" (selection_as_specified opts)).
Proof.
  intros tab opts [H _].
  assert (Hin : In "favIconUrl" (keys (json_tab_object opts tab))).
  { simpl. auto. }
  destruct (H Hin) as [_ []].
Qed.

(** *** Anchor tags *)

(** C10. [getAnchorTagHtml] returns the empty string when the url of
    the tab is absent or empty; otherwise it returns an anchor tag
    around the HTML-encoded title, or the HTML-encoded url when the
    title is missing, so the title reaches the output through
    [encodeHtml] only.  The html tab callbacks of the link and
    htmlTable formats are this function: they return a string for
    every tab, with or without a url. *)
Theorem getAnchorTagHtml_output :
  forall (tab : Tab.t),
    (truthy (Tab.url tab) = false -> getAnchorTagHtml tab = "")
    /\ (forall u, Tab.url tab = Some u -> u <> "" ->
          getAnchorTagHtml tab
          = "<a href=" ++ DQUOTE ++ u ++ DQUOTE ++ ">"
            ++ encodeHtml (if truthy (Tab.title tab)
                           then interpolate (Tab.title tab)
                           else u)
            ++ "</a>")
    /\ (forall opts c,
          TabCtx.tab c = tab ->
          html_tab link opts c
          = Some (Normal (Some (getAnchorTagHtml tab)))
          /\ html_tab htmlTable opts c
             = Some (Normal (Some (getAnchorTagHtml tab)))
          /\ text_tab htmlTable opts c
             = Some (Normal (Some (getAnchorTagHtml tab))))
    /\ (forall opts t,
          Transforms.html (Format.transforms link opts) = Some t
          \/ Transforms.html (Format.transforms htmlTable opts) = Some t ->
          never_throws t).
Proof.
  intros tab. split; [|split; [|split]].
  - intros H. unfold getAnchorTagHtml. now rewrite H.
  - intros u Hu Hne. unfold getAnchorTagHtml, js_or. rewrite Hu.
    rewrite (truthy_nonempty Hne). simpl.
    destruct (truthy (Tab.title tab)); reflexivity.
  - intros opts c <-. repeat split.
  - intros opts t [H|H]; simpl in H; injection H as <-;
      unfold never_throws; simpl; unfold returns;
      repeat split; intros f c H; try discriminate H;
      injection H as <-; intros [e He]; discriminate He.
Qed.

(** *** The registry and the id predicates *)

Lemma find_has_id_none (id : string) (formats : list Format) :
  find (has_id id) formats = None <-> ~ In id (ids_of formats).
Proof.
  induction formats as [|f formats IH]; simpl.
  - intuition auto.
  - unfold has_id at 1.
    destruct (Format.id f) as [i|]; simpl.
    + destruct (String.eqb_spec i id) as [->|Hne].
      * split; [discriminate | intros H; elim H; now left].
      * rewrite IH. intuition auto.
    + exact IH.
Qed.

Lemma existsb_eqb_In (id : string) (l : list string) :
  existsb (String.eqb id) l = true <-> In id l.
Proof.
  rewrite existsb_exists. split.
  - intros (x & Hin & Heq). apply String.eqb_eq in Heq. now subst.
  - intros Hin. exists id. split; [exact Hin | apply String.eqb_refl].
Qed.

Lemma isCustomFormatId_spec (id : string) :
  isCustomFormatId id = true <-> exists token, id = "custom-" ++ token.
Proof.
  unfold isCustomFormatId. split.
  - apply prefix_split.
  - intros [token ->]. apply prefix_append.
Qed.

Lemma builtin_not_custom (id : string) :
  In id builtinFormatIds -> isCustomFormatId id = false.
Proof.
  simpl. intros H.
  repeat (destruct H as [<-|H]; [reflexivity|]). destruct H.
Qed.

(** C8. [isCustomFormatId id] holds exactly when [id] starts with
    ["custom-"]; [isBuiltinFormatWithOptsId id] holds exactly when
    [id] is the id of a registry entry that declares [opts], that is
    one of titleUrl1Line, json and htmlTable; [isFormatWithOptsId id]
    holds exactly when one of the two does.  Each is computed from the
    id and the static registry alone. *)
Theorem format_id_predicates :
  forall (id : string),
    (isCustomFormatId id = true <-> exists token, id = "custom-" ++ token)
    /\ (isBuiltinFormatWithOptsId id = true
        <-> exists f, In f builtinFormats /\ Format.id f = Some id
                      /\ Format.opts f <> None)
    /\ (isBuiltinFormatWithOptsId id = true
        <-> In id ["titleUrl1Line"; "json"; "htmlTable"])
    /\ (isFormatWithOptsId id = true
        <-> isBuiltinFormatWithOptsId id = true
            \/ isCustomFormatId id = true).
Proof.
  intros id.
  assert (Hset : isBuiltinFormatWithOptsId id = true
                 <-> In id ["titleUrl1Line"; "json"; "htmlTable"]).
  { unfold isBuiltinFormatWithOptsId. now rewrite existsb_eqb_In. }
  split; [apply isCustomFormatId_spec|].
  split; [|split; [exact Hset|]].
  - rewrite Hset. split.
    + simpl. intros [<-|[<-|[<-|[]]]].
      * exists titleUrl1Line. simpl. intuition (auto; discriminate).
      * exists json_format. simpl. intuition (auto; discriminate).
      * exists htmlTable. simpl. intuition (auto; discriminate).
    + intros (f & Hin & Hid & Hopts). simpl in Hin.
      repeat (destruct Hin as [<-|Hin];
              [simpl in Hid, Hopts;
               first [ now elim Hopts
                     | injection Hid as <-; simpl; now auto ] |]).
      destruct Hin.
  - unfold isFormatWithOptsId. apply orb_true_iff.
Qed.

(** C1, as amended. [getFormat id] never raises an error.  It returns
    [undefined] if and only if [id] is neither the id of a built-in
    format nor starts with ["custom-"]; for the id of a built-in format
    it returns that registry entry, and for an id that starts with
    ["custom-"] it returns the custom-format template. *)
Theorem getFormat_result :
  forall (id : string),
    ~ fails (getFormat id)
    /\ (getFormat id = Normal None
        <-> ~ In id builtinFormatIds /\ isCustomFormatId id = false)
    /\ (forall f, In f builtinFormats -> Format.id f = Some id ->
          getFormat id = Normal (Some f))
    /\ (isCustomFormatId id = true ->
        getFormat id = Normal (Some customFormat)).
Proof.
  intros id. unfold getFormat. split; [|split; [|split]].
  - intros [e H]. discriminate H.
  - destruct (isCustomFormatId id) eqn:Hc.
    + split; [discriminate | intros [_ H]; discriminate H].
    + split.
      * intros H. split; [|reflexivity].
        apply find_has_id_none. congruence.
      * intros [H _]. apply find_has_id_none in H.
        unfold builtinFormatIds in H. now rewrite H.
  - intros f Hin Hid.
    assert (Hb : In id builtinFormatIds).
    { unfold builtinFormatIds, ids_of. apply in_flat_map.
      exists f. split; [exact Hin|]. rewrite Hid. now left. }
    rewrite (builtin_not_custom Hb).
    simpl in Hin.
    repeat (destruct Hin as [<-|Hin];
            [simpl in Hid; injection Hid as <-; reflexivity|]).
    destruct Hin.
  - intros ->. reflexivity.
Qed.

(** *** Delimiters *)

Section Between.

Variables d a b : position.

Lemma strictly_between_absent (l : list position) :
  ~ In d l -> strictly_between d a b l.
Proof.
  intros H before after ->. elim H. apply in_elt.
Qed.

Lemma strictly_between_app (l1 l2 : list position) :
  strictly_between d a b l1 -> strictly_between d a b l2 ->
  strictly_between d a b (l1 ++ l2).
Proof.
  intros H1 H2 before after E.
  apply app_eq_app in E. destruct E as (m & [[E1 E2]|[E1 E2]]).
  - destruct m as [|x m]; simpl in E2.
    + destruct (H2 [] after (eq_sym E2)) as [[x Hx] _].
      now destruct x.
    + injection E2 as <- ->. subst l1.
      destruct (H1 before m eq_refl) as [Hb [y ->]].
      split; [exact Hb | now exists (y ++ l2)%list].
  - subst before. destruct (H2 m after E2) as [[x ->] Ha].
    split; [exists (l1 ++ x)%list; now rewrite app_assoc | exact Ha].
Qed.

Lemma strictly_between_join (l1 l2 : list position) :
  strictly_between d a b l1 -> strictly_between d a b l2 ->
  (exists x, l1 = (x ++ [a])%list) -> (exists y, l2 = b :: y) ->
  strictly_between d a b (l1 ++ d :: l2).
Proof.
  intros H1 H2 Hl1 Hl2 before after E.
  apply app_eq_app in E. destruct E as (m & [[E1 E2]|[E1 E2]]).
  - destruct m as [|x m]; simpl in E2.
    + injection E2 as ->. rewrite app_nil_r in E1. subst l1.
      now split.
    + injection E2 as <- ->. subst l1.
      destruct (H1 before m eq_refl) as [Hb [y ->]].
      split; [exact Hb | now exists (y ++ d :: l2)%list].
  - destruct m as [|x m]; simpl in E2.
    + injection E2 as ->. rewrite app_nil_r in E1. subst before.
      now split.
    + injection E2 as <- ->. subst before.
      destruct (H2 m after eq_refl) as [[x ->] Ha].
      split; [|exact Ha].
      exists (l1 ++ d :: x)%list. now rewrite <- app_assoc.
Qed.

End Between.

Lemma slots_app (l1 l2 : list action) :
  slots (l1 ++ l2) = (slots l1 ++ slots l2)%list.
Proof. apply map_app. Qed.

(** The slots of the tab steps of a window: tabs and tab delimiters
    only, a tab first and a tab last. *)
Lemma tab_slots (scope : Scope) (tabs : list Tab.t) :
  forall windowSeq windowTabSeq globalSeq,
    let l := slots (Pipeline.tab_steps scope windowSeq windowTabSeq
                      globalSeq tabs) in
    count_occ position_eq_dec l AtTabDelimiter = pred (List.length tabs)
    /\ ~ In AtWindowDelimiter l
    /\ strictly_between AtTabDelimiter AtTab AtTab l
    /\ (tabs <> [] -> exists y, l = AtTab :: y).
Proof.
  induction tabs as [|tab rest IH]; intros windowSeq windowTabSeq globalSeq.
  - simpl. split; [|split; [|split]]; auto.
    + apply strictly_between_absent. auto.
    + intros H. now elim H.
  - destruct rest as [|tab' rest].
    + simpl. split; [|split; [|split]].
      * reflexivity.
      * intros [H|[]]. discriminate H.
      * apply strictly_between_absent. intros [H|[]]. discriminate H.
      * intros _. now exists [].
    + specialize (IH windowSeq (S windowTabSeq) (S globalSeq)).
      cbv zeta in IH |- *.
      change (slots (Pipeline.tab_steps scope windowSeq windowTabSeq
                       globalSeq (tab :: tab' :: rest)))
        with (AtTab :: AtTabDelimiter
              :: slots (Pipeline.tab_steps scope windowSeq (S windowTabSeq)
                          (S globalSeq) (tab' :: rest))).
      set (l := slots (Pipeline.tab_steps scope windowSeq (S windowTabSeq)
                         (S globalSeq) (tab' :: rest))) in *.
      destruct IH as (Hc & Hw & Hb & Hh).
      split; [|split; [|split]].
      * rewrite count_occ_cons_neq by discriminate.
        rewrite count_occ_cons_eq by reflexivity.
        rewrite Hc. reflexivity.
      * intros [H|[H|H]]; [discriminate H | discriminate H | now apply Hw].
      * apply (strictly_between_join (l1 := [AtTab])); auto.
        -- apply strictly_between_absent. intros [H|[]]. discriminate H.
        -- now exists [].
        -- apply Hh. discriminate.
      * intros _. now eexists.
Qed.

Lemma window_slots (scope : Scope) (seq globalSeq : nat) (w : Window.t) :
  let l := slots (Pipeline.window_steps scope seq globalSeq w) in
  count_occ position_eq_dec l AtTabDelimiter
  = pred (List.length (Window.tabs w))
  /\ ~ In AtWindowDelimiter l
  /\ strictly_between AtTabDelimiter AtTab AtTab l
  /\ (Pipeline.window_boundaries scope = true ->
      (exists y, l = AtWindowStart :: y)
      /\ (exists x, l = (x ++ [AtWindowEnd])%list)).
Proof.
  cbv zeta. unfold Pipeline.window_steps, Pipeline.when_windows.
  destruct (tab_slots scope (Window.tabs w) seq 1 globalSeq)
    as (Hc & Hw & Hb & _).
  set (l := slots (Pipeline.tab_steps scope seq 1 globalSeq (Window.tabs w)))
    in *.
  destruct (Pipeline.window_boundaries scope).
  - rewrite !slots_app. fold l. cbn [slots map position_of app].
    split; [|split; [|split]].
    + rewrite count_occ_cons_neq by discriminate.
      rewrite count_occ_app, Hc. simpl. lia.
    + intros [H|H]; [discriminate H|].
      apply in_app_or in H. destruct H as [H|[H|[]]];
        [now apply Hw | discriminate H].
    + apply (strictly_between_app (l1 := [AtWindowStart])).
      * apply strictly_between_absent. intros [H|[]]. discriminate H.
      * apply strictly_between_app; [exact Hb|].
        apply strictly_between_absent. intros [H|[]]. discriminate H.
    + intros _. split; [now eexists|].
      exists (AtWindowStart :: l). reflexivity.
  - cbn [app]. rewrite app_nil_r. fold l.
    split; [exact Hc | split; [exact Hw | split; [exact Hb | discriminate]]].
Qed.

Lemma windows_slots (scope : Scope) (windows : list Window.t) :
  forall seq globalSeq,
    let l := slots (Pipeline.windows_steps scope seq globalSeq windows) in
    count_occ position_eq_dec l AtTabDelimiter = gaps_between_tabs windows
    /\ count_occ position_eq_dec l AtWindowDelimiter
       = (if Pipeline.window_boundaries scope
          then pred (List.length windows) else 0)
    /\ strictly_between AtTabDelimiter AtTab AtTab l
    /\ strictly_between AtWindowDelimiter AtWindowEnd AtWindowStart l
    /\ (Pipeline.window_boundaries scope = true -> windows <> [] ->
        exists y, l = AtWindowStart :: y).
Proof.
  induction windows as [|w rest IH]; intros seq globalSeq.
  - cbv zeta. simpl. destruct (Pipeline.window_boundaries scope).
    all: split; [reflexivity|].
    all: split; [reflexivity|].
    all: split; [apply strictly_between_absent; auto|].
    all: split; [apply strictly_between_absent; auto|].
    all: intros _ H; now elim H.
  - destruct (window_slots scope seq globalSeq w)
      as (Wc & Ww & Wb & Wh).
    cbv zeta in Wc, Ww, Wb, Wh |- *.
    destruct rest as [|w' rest].
    + change (Pipeline.windows_steps scope seq globalSeq [w])
        with (Pipeline.window_steps scope seq globalSeq w ++ [])%list.
      rewrite app_nil_r.
      set (l := slots (Pipeline.window_steps scope seq globalSeq w)) in *.
      split; [|split; [|split; [|split]]].
      * rewrite Wc. unfold gaps_between_tabs. simpl. lia.
      * rewrite (proj1 (count_occ_not_In position_eq_dec l
                          AtWindowDelimiter) Ww).
        now destruct (Pipeline.window_boundaries scope).
      * exact Wb.
      * now apply strictly_between_absent.
      * intros Hs _. now destruct (Wh Hs).
    + specialize (IH (S seq)
                     (globalSeq + List.length (Window.tabs w))).
      cbv zeta in IH.
      change (Pipeline.windows_steps scope seq globalSeq (w :: w' :: rest))
        with (Pipeline.window_steps scope seq globalSeq w
              ++ Pipeline.when_windows scope [InsertWindowDelimiter]
              ++ Pipeline.windows_steps scope (S seq)
                   (globalSeq + List.length (Window.tabs w))
                   (w' :: rest))%list.
      rewrite !slots_app.
      set (l1 := slots (Pipeline.window_steps scope seq globalSeq w)) in *.
      set (l2 := slots (Pipeline.windows_steps scope (S seq)
                          (globalSeq + List.length (Window.tabs w))
                          (w' :: rest))) in *.
      destruct IH as (Ic & Iw & Ib & Id & Ih).
      unfold Pipeline.when_windows.
      destruct (Pipeline.window_boundaries scope) eqn:Hs;
        cbn [slots map position_of app].
      * split; [|split; [|split; [|split]]].
        -- rewrite count_occ_app, count_occ_cons_neq by discriminate.
           rewrite Wc, Ic.
           unfold gaps_between_tabs. simpl. lia.
        -- rewrite count_occ_app, count_occ_cons_eq by reflexivity.
           rewrite (proj1 (count_occ_not_In position_eq_dec l1
                             AtWindowDelimiter) Ww), Iw.
           reflexivity.
        -- apply strictly_between_app; [exact Wb|].
           apply (strictly_between_app (l1 := [AtWindowDelimiter]));
             [|exact Ib].
           apply strictly_between_absent. intros [H|[]]. discriminate H.
        -- destruct (Wh eq_refl) as [_ Hend].
           apply strictly_between_join; auto.
           ++ now apply strictly_between_absent.
           ++ apply Ih; [reflexivity | discriminate].
        -- intros _ _. destruct (Wh eq_refl) as [[y Hy] _].
           rewrite Hy. now eexists.
      * split; [|split; [|split; [|split]]].
        -- rewrite count_occ_app, Wc, Ic.
           unfold gaps_between_tabs. simpl. lia.
        -- rewrite count_occ_app, Iw.
           rewrite (proj1 (count_occ_not_In position_eq_dec l1
                             AtWindowDelimiter) Ww).
           reflexivity.
        -- now apply strictly_between_app.
        -- apply strictly_between_app; [|exact Id].
           now apply strictly_between_absent.
        -- discriminate.
Qed.

Lemma steps_slots (formatName : string) (scope : Scope)
    (windows : list Window.t) :
  let l := slots (Pipeline.steps formatName scope windows) in
  count_occ position_eq_dec l AtTabDelimiter = gaps_between_tabs windows
  /\ count_occ position_eq_dec l AtWindowDelimiter
     = (if Pipeline.window_boundaries scope
        then pred (List.length windows) else 0)
  /\ strictly_between AtTabDelimiter AtTab AtTab l
  /\ strictly_between AtWindowDelimiter AtWindowEnd AtWindowStart l.
Proof.
  cbv zeta. unfold Pipeline.steps.
  destruct (windows_slots scope windows 1 1) as (Hc & Hw & Hb & Hd & _).
  cbv zeta in Hc, Hw, Hb, Hd.
  rewrite !slots_app.
  set (l := slots (Pipeline.windows_steps scope 1 1 windows)) in *.
  assert (Hs : forall x : action,
             position_of x = AtStart ->
             let s := slots (if Pipeline.calls_start scope
                             then [x] else []) in
             count_occ position_eq_dec s AtTabDelimiter = 0
             /\ count_occ position_eq_dec s AtWindowDelimiter = 0
             /\ ~ In AtTabDelimiter s /\ ~ In AtWindowDelimiter s).
  { intros x Hx. cbv zeta.
    destruct (Pipeline.calls_start scope); simpl; rewrite ?Hx.
    - repeat split; try reflexivity; intros [H|[]]; discriminate H.
    - repeat split; auto. }
  match goal with
  | |- context [slots (if _ then [?x] else [])] =>
      destruct (Hs x eq_refl) as (S1 & S2 & S3 & S4)
  end.
  cbv zeta in S1, S2, S3, S4.
  cbn [slots map position_of] in *.
  split; [|split; [|split]].
  - rewrite !count_occ_app, S1, Hc. simpl. lia.
  - rewrite !count_occ_app, S2, Hw. simpl. lia.
  - apply strictly_between_app; [now apply strictly_between_absent|].
    apply strictly_between_app; [exact Hb|].
    apply strictly_between_absent. intros [H|[]]. discriminate H.
  - apply strictly_between_app; [now apply strictly_between_absent|].
    apply strictly_between_app; [exact Hd|].
    apply strictly_between_absent. intros [H|[]]. discriminate H.
Qed.

Lemma run_positions (t : TextTransform.t) (todo : list action) :
  forall out, Pipeline.run t todo = Normal out -> positions out = slots todo.
Proof.
  induction todo as [|a todo IH]; intros out H; simpl in H.
  - injection H as <-. reflexivity.
  - destruct (Pipeline.run_step t a) as [s|e]; [|discriminate H].
    simpl in H.
    destruct (Pipeline.run t todo) as [out'|e]; [|discriminate H].
    simpl in H. injection H as <-. simpl. now rewrite (IH out').
Qed.

Lemma run_delimiters (t : TextTransform.t) (todo : list action) :
  forall out, Pipeline.run t todo = Normal out ->
    forall s,
      (In (AtTabDelimiter, s) out ->
       s = Pipeline.delimiter (TextTransform.tabDelimiter t))
      /\ (In (AtWindowDelimiter, s) out ->
          s = Pipeline.delimiter (TextTransform.windowDelimiter t)).
Proof.
  induction todo as [|a todo IH]; intros out H s; simpl in H.
  - injection H as <-. split; intros [].
  - destruct (Pipeline.run_step t a) as [s'|e] eqn:Hstep; [|discriminate H].
    simpl in H.
    destruct (Pipeline.run t todo) as [out'|e]; [|discriminate H].
    simpl in H. injection H as <-.
    destruct (IH out' eq_refl s) as [IH1 IH2].
    split; intros [Heq|Hin]; auto.
    + injection Heq as Hp <-. destruct a; try discriminate Hp.
      simpl in Hstep. now injection Hstep as <-.
    + injection Heq as Hp <-. destruct a; try discriminate Hp.
      simpl in Hstep. now injection Hstep as <-.
Qed.

Lemma emit_returns {C : Type} (cb : option (callback C)) (c : C) :
  (forall f, cb = Some f -> ~ fails (f c)) ->
  exists s, Pipeline.emit cb c = Normal s.
Proof.
  intros H. destruct cb as [f|]; simpl; [|now eexists].
  specialize (H f eq_refl).
  destruct (f c) as [v|e]; simpl; [now eexists|].
  elim H. now exists e.
Qed.

Lemma run_returns (t : TextTransform.t) (todo : list action) :
  never_throws t -> exists out, Pipeline.run t todo = Normal out.
Proof.
  intros (H1 & H2 & H3 & H4 & H5).
  induction todo as [|a todo [out IH]]; simpl; [now eexists|].
  assert (Hs : exists s, Pipeline.run_step t a = Normal s).
  { destruct a; simpl; try (now eexists); apply emit_returns; auto. }
  destruct Hs as [s ->]. rewrite IH. simpl. now eexists.
Qed.

Lemma gaps_plus_windows (windows : list Window.t) :
  Forall (fun w => Window.tabs w <> []) windows ->
  gaps_between_tabs windows + List.length windows
  = Pipeline.tabCount_of windows.
Proof.
  unfold gaps_between_tabs, Pipeline.tabCount_of.
  induction 1 as [|w windows Hw _ IH]; [reflexivity|].
  simpl. destruct (Window.tabs w) as [|tab tabs]; [now elim Hw|].
  simpl in *. lia.
Qed.

(** C2, as amended. In every rendered representation, whatever the
    transform, the scope and the windows, the tab delimiter is inserted
    strictly between two successive tab outputs of a window, never
    leading or trailing; it appears once per pair of successive tabs of
    a window, which is (total number of tabs) minus (number of
    windows) times when every window has at least one tab.  When the
    scope is [windows] the window delimiter is inserted strictly
    between two successive window blocks, never leading or trailing;
    it appears (number of windows) minus 1 times when there is at
    least one window, and not at all otherwise.  A transform whose
    callbacks raise no error always has a rendering. *)
Theorem delimiters_between :
  forall (t : TextTransform.t) (formatName : string) (scope : Scope)
         (windows : list Window.t),
    (never_throws t ->
     exists out,
       Pipeline.render_representation t formatName scope windows
       = Normal out)
    /\ forall out,
        Pipeline.render_representation t formatName scope windows
        = Normal out ->
        (strictly_between AtTabDelimiter AtTab AtTab (positions out)
         /\ count_at AtTabDelimiter out = gaps_between_tabs windows
         /\ (Forall (fun w => Window.tabs w <> []) windows ->
             Z.of_nat (count_at AtTabDelimiter out)
             = (Z.of_nat (Pipeline.tabCount_of windows)
                - Z.of_nat (List.length windows))%Z)
         /\ forall s, In (AtTabDelimiter, s) out ->
              s = Pipeline.delimiter (TextTransform.tabDelimiter t))
        /\ (scope = ScopeWindows ->
            strictly_between AtWindowDelimiter AtWindowEnd AtWindowStart
              (positions out)
            /\ count_at AtWindowDelimiter out = pred (List.length windows)
            /\ (windows <> [] ->
                Z.of_nat (count_at AtWindowDelimiter out)
                = (Z.of_nat (List.length windows) - 1)%Z)
            /\ forall s, In (AtWindowDelimiter, s) out ->
                 s = Pipeline.delimiter (TextTransform.windowDelimiter t)).
Proof.
  intros t formatName scope windows.
  split; [intros H; now apply run_returns|].
  intros out H. unfold Pipeline.render_representation in H.
  pose proof (run_positions _ _ H) as Hp.
  pose proof (run_delimiters _ _ H) as Hd.
  destruct (steps_slots formatName scope windows) as (Hc & Hw & Hb & Hbw).
  cbv zeta in Hc, Hw, Hb, Hbw.
  unfold count_at. rewrite Hp.
  split.
  - split; [exact Hb|]. split; [exact Hc|]. split.
    + intros Hne. rewrite Hc.
      pose proof (gaps_plus_windows Hne). lia.
    + intros s. apply Hd.
  - intros ->. cbn [Pipeline.window_boundaries] in Hw.
    split; [exact Hbw|]. split; [exact Hw|]. split.
    + intros Hne. rewrite Hw.
      destruct windows as [|w l]; [now elim Hne|].
      change (List.length (w :: l)) with (S (List.length l)).
      rewrite Nat.pred_succ. lia.
    + intros s. apply Hd.
Qed.

(** C2 as stated fails: two windows, the first without tabs and the
    second with two, have one tab delimiter, where (number of tabs)
    minus (number of windows) is 0; and no window at all has no window
    delimiter, where (number of windows) minus 1 is -1. *)
Lemma delimiters_with_an_empty_window :
  let a := Tab.mk (Some 1) (Some "A") (Some "http://a") None in
  let b := Tab.mk (Some 2) (Some "B") (Some "http://b") None in
  let windows := [Window.mk (Some 1) []; Window.mk (Some 2) [a; b]] in
  (exists out,
     Pipeline.render_representation delimiters_only "x" ScopeWindows windows
     = Normal out
     /\ text_of out = ";,"
     /\ Z.of_nat (count_at AtTabDelimiter out)
        <> (Z.of_nat (Pipeline.tabCount_of windows)
            - Z.of_nat (List.length windows))%Z)
  /\ (exists out,
        Pipeline.render_representation delimiters_only "x" ScopeWindows []
        = Normal out
        /\ Z.of_nat (count_at AtWindowDelimiter out)
           <> (Z.of_nat (@List.length Window.t []) - 1)%Z).
Proof.
  split; eexists; (split; [reflexivity|]).
  - split; [reflexivity | discriminate].
  - discriminate.
Qed.

(** *** The header row of a csv rendering *)

Lemma append_empty (s : string) : s ++ "" = s.
Proof. induction s as [|a s IH]; simpl; [reflexivity | now rewrite IH]. Qed.

Lemma text_of_cons (p : position) (s : string) (out : fragments) :
  text_of ((p, s) :: out) = s ++ text_of out.
Proof.
  unfold text_of. destruct out as [|x out]; simpl.
  - now rewrite append_empty.
  - reflexivity.
Qed.

Lemma csv_never_throws (opts : option Opts.t) :
  never_throws (Transforms.text (Format.transforms csv opts)).
Proof.
  unfold never_throws; simpl; unfold returns.
  repeat split; intros f c H; try discriminate H;
    injection H as <-; intros [e He]; discriminate He.
Qed.


End Properties.

(** ** The theorems at concrete inputs *)

(** The example of section 8: scope [windows], two windows of one tab
    each, format [url]. *)
Example url_two_windows_of_one_tab :
  exists out,
    Pipeline.render_representation
      (Transforms.text (Format.transforms (@url Sample.english) None))
      "url" ScopeWindows
      [Sample.window [Sample.tab (Some "One") (Some "http://a")];
       Sample.window [Sample.tab (Some "Two") (Some "http://b")]]
    = Normal out
    /\ text_of out
       = "Window 1" ++ LF ++ LF ++ "http://a" ++ LF ++ LF
         ++ "Window 2" ++ LF ++ LF ++ "http://b".
Proof. eexists. split; reflexivity. Qed.

(** C1 as stated fails: ["nope"] is neither a built-in id nor a custom
    id, and [getFormat] does not fail on it; it returns [undefined]. *)
Lemma getFormat_unknown_id_returns_undefined :
  ~ (fails (@getFormat Sample.english "nope")
     <-> ~ In "nope" (@builtinFormatIds Sample.english)
         /\ isCustomFormatId "nope" = false)
  /\ @getFormat Sample.english "nope" = Normal None.
Proof.
  split; [|reflexivity].
  intros [_ H].
  destruct H as [e He]; [|discriminate He].
  split; [|reflexivity].
  simpl. intros Hin.
  repeat (destruct Hin as [Hin|Hin]; [discriminate Hin|]). exact Hin.
Qed.

Lemma getFormat_result_witness :
  In (@csv Sample.english) (@builtinFormats Sample.english)
  /\ @getFormat Sample.english "csv" = Normal (Some (@csv Sample.english))
  /\ @getFormat Sample.english "custom-1a2b"
     = Normal (Some (@customFormat Sample.english)).
Proof.
  assert (Hin : In (@csv Sample.english) (@builtinFormats Sample.english)).
  { simpl. auto 10. }
  split; [exact Hin|]. split.
  - destruct (@getFormat_result Sample.english "csv") as (_ & _ & H & _).
    exact (H _ Hin eq_refl).
  - destruct (@getFormat_result Sample.english "custom-1a2b")
      as (_ & _ & _ & H).
    exact (H eq_refl).
Defined.

Lemma delimiters_between_witness :
  never_throws (@urlTextTransform Sample.english)
  /\ exists out,
       Pipeline.render_representation (@urlTextTransform Sample.english)
         "url" ScopeWindows Sample.two_windows = Normal out
       /\ count_at AtTabDelimiter out = 1
       /\ count_at AtWindowDelimiter out = 1.
Proof.
  assert (Hn : never_throws (@urlTextTransform Sample.english)).
  { unfold never_throws; simpl; unfold returns.
    repeat split; intros f c H; try discriminate H;
      injection H as <-; intros [e He]; discriminate He. }
  split; [exact Hn|].
  destruct (@delimiters_between (@urlTextTransform Sample.english) "url"
              ScopeWindows Sample.two_windows) as [Hex Hall].
  destruct (Hex Hn) as [out Hout].
  exists out. split; [exact Hout|].
  destruct (Hall out Hout) as [(_ & Hc & _) Hw].
  destruct (Hw eq_refl) as (_ & Hcw & _).
  split; [exact Hc | exact Hcw].
Defined.

Lemma titleUrl1Line_tab_output_witness :
  text_tab (@titleUrl1Line Sample.english) Sample.bar
    (Sample.ctx (Sample.tab (Some "Example") (Some "http://x")))
  = Some (Normal (Some "Example | http://x"))
  /\ text_tab (@titleUrl1Line Sample.english) None
       (Sample.ctx (Sample.tab None (Some "http://x")))
     = Some (Normal (Some "(untitled): http://x")).
Proof.
  split.
  - destruct (@titleUrl1Line_tab_output Sample.english Sample.bar
                (Sample.ctx (Sample.tab (Some "Example") (Some "http://x")))
                "http://x" eq_refl ltac:(discriminate)) as [H _].
    exact (H "Example" eq_refl ltac:(discriminate)).
  - destruct (@titleUrl1Line_tab_output Sample.english None
                (Sample.ctx (Sample.tab None (Some "http://x")))
                "http://x" eq_refl ltac:(discriminate)) as (_ & H & _).
    exact (H eq_refl).
Defined.

(** C4 as stated fails: on a tab that has a title but no url the
    callback raises a TypeError, so there is no output of any form. *)
Lemma markdown_tab_without_url_throws :
  let c := {| TabCtx.tab := Tab.mk (Some 7) (Some "Example") None None;
              TabCtx.globalSeq := 1;
              TabCtx.windowTabSeq := None;
              TabCtx.windowSeq := None |} in
  ~ (exists T U : string,
       text_tab (@markdown Sample.english) None c
       = Some (Normal (Some ("[" ++ T ++ "](" ++ U ++ ")"))))
  /\ exists e, text_tab (@markdown Sample.english) None c = Some (Throw e).
Proof.
  split.
  - intros (T & U & H). discriminate H.
  - eexists. reflexivity.
Qed.

Lemma markdown_tab_output_witness :
  text_tab (@markdown Sample.english) None
    (Sample.ctx (Sample.tab (Some "a[1]") (Some "http://x/(y)")))
  = Some (Normal (Some "[a\[1\]](http://x/\(y\))")).
Proof.
  exact (@markdown_tab_output Sample.english None
           (Sample.ctx (Sample.tab (Some "a[1]") (Some "http://x/(y)")))
           "http://x/(y)" eq_refl).
Defined.



Lemma json_tab_properties_witness :
  In "url" tab_property_keys
  /\ In "url"
       (keys (json_tab_object (Format.opts (@json_format Sample.english))
                (Sample.tab None (Some "http://x")))).
Proof.
  assert (Hk : In "url" tab_property_keys) by (simpl; auto).
  split; [exact Hk|].
  destruct (@json_tab_properties Sample.english
              (Format.opts (@json_format Sample.english))
              (Sample.ctx (Sample.tab None (Some "http://x"))) "url" Hk)
    as (_ & H & _).
  apply H. split; [reflexivity | right; reflexivity].
Defined.

Lemma titleUrl2Line_tab_output_witness :
  text_tab (@titleUrl2Line Sample.english) Sample.bar
    (Sample.ctx (Sample.tab (Some "Example") (Some "http://x")))
  = Some (Normal (Some ("Example" ++ LF ++ "http://x"))).
Proof.
  exact (@titleUrl2Line_tab_output Sample.english Sample.bar
           (Sample.ctx (Sample.tab (Some "Example") (Some "http://x")))
           "http://x" eq_refl ltac:(discriminate)).
Defined.

Lemma format_id_predicates_witness :
  @isFormatWithOptsId Sample.english "custom-1a2b" = true
  /\ @isBuiltinFormatWithOptsId Sample.english "json" = true.
Proof.
  destruct (@format_id_predicates Sample.english "custom-1a2b")
    as (Hc & _ & _ & Hf).
  destruct (@format_id_predicates Sample.english "json")
    as (_ & _ & Hb & _).
  split.
  - apply Hf. right. apply Hc. now exists "1a2b".
  - apply Hb. simpl. auto.
Defined.

Lemma getAnchorTagHtml_output_witness :
  @getAnchorTagHtml Sample.english (Sample.tab (Some "a<b") (Some "http://x"))
  = "<a href=" ++ DQUOTE ++ "http://x" ++ DQUOTE ++ ">a&lt;b</a>"
  /\ @getAnchorTagHtml Sample.english (Sample.tab (Some "a<b") None) = "".
Proof.
  split.
  - destruct (@getAnchorTagHtml_output Sample.english
                (Sample.tab (Some "a<b") (Some "http://x"))) as (_ & H & _).
    exact (H "http://x" eq_refl ltac:(discriminate)).
  - destruct (@getAnchorTagHtml_output Sample.english
                (Sample.tab (Some "a<b") None)) as (H & _).
    exact (H eq_refl).
Defined.

(** ** Further properties of the formats and of the options page *)

Section MoreProperties.

Context {ext : Externals} {page : OptionsExternals}.

(** *** The regular expression of the json window header *)

Ltac to_arith :=
  repeat match goal with
         | H : _ && _ = true |- _ => apply andb_true_iff in H; destruct H
         | H : _ || _ = true |- _ => apply orb_true_iff in H; destruct H
         | H : Nat.eqb _ _ = true |- _ => apply Nat.eqb_eq in H
         | H : Nat.leb _ _ = true |- _ => apply Nat.leb_le in H
         end.

Lemma not_open_bracket (a : ascii) :
  nat_of_ascii a <> 91 -> Ascii.eqb a "[" = false.
Proof. intros H. apply Ascii.eqb_neq. intros ->. now apply H. Qed.

Lemma string_length_append (a b : string) :
  String.length (a ++ b) = String.length a + String.length b.
Proof. induction a as [|x a IH]; simpl; [reflexivity | now rewrite IH]. Qed.

Lemma has_open_bracket_append (a b : string) :
  has_open_bracket (a ++ b) = has_open_bracket a || has_open_bracket b.
Proof.
  induction a as [|x a IH]; simpl; [reflexivity|].
  now rewrite IH, orb_assoc.
Qed.

(** What [strip_space] removes: one to three bytes, none of them an
    opening bracket, and not the whole of the rest. *)
Lemma strip_space_removes (s r : string) :
  strip_space s = Some r ->
  has_open_bracket s = has_open_bracket r
  /\ (r <> "" -> ends_with_brace s = ends_with_brace r).
Proof.
  unfold strip_space. cbv beta zeta.
  destruct s as [|a rest]; [discriminate|].
  match goal with
  | |- (if ?c then _ else _) = Some _ -> _ => destruct c eqn:C1
  end.
  { intros H. injection H as <-. to_arith.
    all: split; [simpl; rewrite not_open_bracket by lia; reflexivity|].
    all: intros Hr; simpl; now destruct rest. }
  destruct rest as [|b rest2]; [discriminate|].
  match goal with
  | |- (if ?c then _ else _) = Some _ -> _ => destruct c eqn:C2
  end.
  { intros H. injection H as <-. to_arith.
    split; [simpl; rewrite !not_open_bracket by lia; reflexivity|].
    intros Hr; simpl; now destruct rest2. }
  destruct rest2 as [|c rest3]; [discriminate|].
  repeat match goal with
         | |- (if ?c then _ else _) = Some _ -> _ =>
             let C := fresh "C" in destruct c eqn:C
         end; try discriminate.
  all: intros H; injection H as <-; to_arith.
  all: split; [simpl; rewrite !not_open_bracket by lia; reflexivity|].
  all: intros Hr; simpl; now destruct rest3.
Qed.

Lemma spaces_then_brace_no_bracket (fuel : nat) :
  forall r, has_open_bracket r = true -> spaces_then_brace fuel r = false.
Proof.
  induction fuel as [|fuel IH]; intros r H; simpl.
  - destruct (String.eqb_spec r "}") as [->|_]; [discriminate H | reflexivity].
  - destruct (String.eqb_spec r "}") as [->|_]; [discriminate H|].
    destruct (strip_space r) as [r'|] eqn:E; [|reflexivity].
    apply IH. destruct (strip_space_removes _ E) as [<- _]. exact H.
Qed.

Lemma spaces_then_brace_ends (fuel : nat) :
  forall r, spaces_then_brace fuel r = true -> ends_with_brace r = true.
Proof.
  induction fuel as [|fuel IH]; intros r; simpl.
  - destruct (String.eqb_spec r "}") as [->|_]; [reflexivity | discriminate].
  - destruct (String.eqb_spec r "}") as [->|_]; [reflexivity|].
    destruct (strip_space r) as [r'|] eqn:E; [|discriminate].
    intros H. destruct (strip_space_removes _ E) as [_ Hend].
    rewrite Hend; [now apply IH|].
    intros ->. destruct fuel; discriminate H.
Qed.

Lemma spaces_then_brace_blank (w : string) :
  forall fuel,
    blank w = true -> String.length w <= fuel ->
    spaces_then_brace fuel (w ++ "}") = true.
Proof.
  induction w as [|a w IH]; intros fuel Hb Hl.
  - now destruct fuel.
  - simpl in Hb, Hl. apply andb_true_iff in Hb. destruct Hb as [Ha Hb].
    destruct fuel as [|fuel]; [lia|].
    apply orb_true_iff in Ha.
    destruct Ha as [Ha|Ha]; apply Ascii.eqb_eq in Ha; subst a;
      cbn [append spaces_then_brace];
      (apply IH; [exact Hb | lia]).
Qed.

Lemma empty_array_tail_no_bracket (a : ascii) (s : string) :
  has_open_bracket s = true -> empty_array_tail (String a s) = false.
Proof.
  intros H.
  destruct a as [[] [] [] [] [] [] [] []]; try reflexivity.
  destruct s as [|b rest]; [reflexivity|].
  destruct b as [[] [] [] [] [] [] [] []]; try reflexivity.
  simpl in H. unfold empty_array_tail.
  now apply spaces_then_brace_no_bracket.
Qed.

Lemma empty_array_tail_ends (s : string) :
  empty_array_tail s = true -> ends_with_brace s = true.
Proof.
  destruct s as [|a s]; [discriminate|].
  destruct a as [[] [] [] [] [] [] [] []]; try discriminate.
  destruct s as [|b rest]; [discriminate|].
  destruct b as [[] [] [] [] [] [] [] []]; try discriminate.
  unfold empty_array_tail. intros H.
  pose proof (spaces_then_brace_ends _ _ H) as E.
  destruct rest; [discriminate E | exact E].
Qed.

Lemma open_tabs_array_prefix (before tail : string) :
  empty_array_tail tail = true ->
  has_open_bracket tail = true ->
  open_tabs_array (before ++ tail) = before ++ "[".
Proof.
  intros Ht Hb.
  induction before as [|a before IH].
  - destruct tail as [|x tail]; [discriminate Ht|].
    cbn [append open_tabs_array]. now rewrite Ht.
  - cbn [append open_tabs_array].
    rewrite empty_array_tail_no_bracket.
    + now rewrite IH.
    + rewrite has_open_bracket_append, Hb. apply orb_true_r.
Qed.

Lemma empty_array_tail_blank (gap : string) :
  blank gap = true -> empty_array_tail ("[]" ++ gap ++ "}") = true.
Proof.
  intros Hb.
  change (empty_array_tail ("[]" ++ gap ++ "}"))
    with (spaces_then_brace (String.length (gap ++ "}")) (gap ++ "}")).
  apply spaces_then_brace_blank; [exact Hb|].
  rewrite string_length_append. lia.
Qed.

(** X1. Whatever text comes first, the replacement opens the empty
    array that ends the text: a final ["[]"], any run of spaces and line
    feeds and the closing brace are replaced by ["["], and nothing
    before them changes, even when the text before holds brackets or
    braces of its own. *)
Theorem open_tabs_array_opens_tail :
  forall (before gap : string),
    blank gap = true ->
    open_tabs_array (before ++ "[]" ++ gap ++ "}") = before ++ "[".
Proof.
  intros before gap Hb.
  apply open_tabs_array_prefix.
  - now apply empty_array_tail_blank.
  - reflexivity.
Qed.

(** X2. A text that does not end with a closing brace is returned as it
    is. *)
Theorem open_tabs_array_unchanged :
  forall (s : string),
    ends_with_brace s = false -> open_tabs_array s = s.
Proof.
  induction s as [|a s IH]; intros H; [reflexivity|].
  cbn [open_tabs_array].
  destruct (empty_array_tail (String a s)) eqn:E.
  - apply empty_array_tail_ends in E. congruence.
  - rewrite IH; [reflexivity|].
    destruct s; [reflexivity | exact H].
Qed.

(** *** The two revisions of [getTitleUrlText] *)

(** X3. The two revisions of [getTitleUrlText] return the same text for
    every url and separator unless the title is the empty string: the
    earlier one then leaves the title position empty, the current one
    writes ["(untitled)"]. *)
Theorem getTitleUrlText_revisions_agree :
  forall (url title separator : option string),
    EarlierRevision.getTitleUrlText url title separator
    = getTitleUrlText url title separator
    <-> title <> Some "".
Proof.
  intros url title separator.
  unfold EarlierRevision.getTitleUrlText, getTitleUrlText, js_or.
  destruct title as [[|a t]|]; simpl.
  - split; [|intros H; now elim H].
    intros H _. apply (f_equal String.length) in H.
    simpl in H. lia.
  - split; [discriminate | reflexivity].
  - split; [discriminate | reflexivity].
Qed.

(** *** Escaping in the markdown format *)

Section Escape.

Variable special : ascii -> bool.
Hypothesis backslash_plain : special "\" = false.

Lemma backslash_escape_guarded (s : string) :
  forall escaped, guarded special escaped (backslash_escape special s) = true.
Proof.
  induction s as [|a s IH]; intros escaped; [reflexivity|].
  cbn [backslash_escape]. destruct (special a) eqn:Ha; cbn [guarded].
  - rewrite backslash_plain, Ha, IH. reflexivity.
  - rewrite Ha, IH. reflexivity.
Qed.

Lemma backslash_escape_head (s : string) (b : ascii) (rest : string) :
  backslash_escape special s = String b rest ->
  Ascii.eqb b "\" = true \/ special b = false.
Proof.
  destruct s as [|a s]; [discriminate|].
  cbn [backslash_escape]. destruct (special a) eqn:Ha; intros H;
    injection H as <- _; [left; reflexivity | right; exact Ha].
Qed.

Lemma unescape_backslash_escape (s : string) :
  unescape special (backslash_escape special s) = s.
Proof.
  induction s as [|a s IH]; [reflexivity|].
  cbn [backslash_escape]. destruct (special a) eqn:Ha.
  - cbn [unescape]. rewrite Ha, IH. reflexivity.
  - cbn [unescape].
    destruct (backslash_escape special s) as [|b rest] eqn:E.
    + simpl in IH. now subst s.
    + assert (Hb : Ascii.eqb a "\" && special b = false).
      { destruct (backslash_escape_head _ E) as [Hb|Hb].
        - apply Ascii.eqb_eq in Hb. subst b.
          rewrite backslash_plain. apply andb_false_r.
        - rewrite Hb. apply andb_false_r. }
      rewrite Hb, IH. reflexivity.
Qed.

End Escape.

(** X4. In the markdown text tab output ["[T](U)"] of a tab that has a
    url, every bracket of [T] comes directly after a backslash and every
    parenthesis of [U] comes directly after a backslash: the callback
    never leaves one of them bare. *)
Theorem markdown_tab_never_bare :
  forall (opts : option Opts.t) (c : TabCtx.t) (u : string),
    Tab.url (TabCtx.tab c) = Some u ->
    exists T U,
      text_tab markdown opts c
      = Some (Normal (Some ("[" ++ T ++ "](" ++ U ++ ")")))
      /\ guarded is_bracket false T = true
      /\ guarded is_paren false U = true.
Proof.
  intros opts c u Hu. unfold text_tab; simpl. unfold markdown_tab.
  rewrite Hu.
  assert (Ht : exists t, js_or (Tab.title (TabCtx.tab c)) (Some u) = Some t).
  { unfold js_or. destruct (truthy (Tab.title (TabCtx.tab c))) eqn:E.
    - destruct (Tab.title (TabCtx.tab c)); [now eexists | discriminate E].
    - now eexists. }
  destruct Ht as [t ->]. simpl.
  rewrite replace_brackets, replace_parens.
  do 2 eexists. split; [reflexivity|].
  split; now apply backslash_escape_guarded.
Qed.

(** X5. The two replacement chains of the markdown callback lose
    nothing: dropping the backslash before each bracket (each
    parenthesis) gives the text back, so two different titles, or two
    different urls, never escape to the same text. *)
Theorem markdown_escaping_injective :
  forall (s1 s2 : string),
    (unescape is_bracket
       (replace_all "]" "\]" (replace_all "[" "\[" s1)) = s1
     /\ unescape is_paren
          (replace_all ")" "\)" (replace_all "(" "\(" s1)) = s1)
    /\ (replace_all "]" "\]" (replace_all "[" "\[" s1)
        = replace_all "]" "\]" (replace_all "[" "\[" s2) -> s1 = s2)
    /\ (replace_all ")" "\)" (replace_all "(" "\(" s1)
        = replace_all ")" "\)" (replace_all "(" "\(" s2) -> s1 = s2).
Proof.
  intros s1 s2. rewrite !replace_brackets, !replace_parens.
  assert (B : forall s, unescape is_bracket (backslash_escape is_bracket s) = s)
    by (intros s; now apply unescape_backslash_escape).
  assert (P : forall s, unescape is_paren (backslash_escape is_paren s) = s)
    by (intros s; now apply unescape_backslash_escape).
  split; [split; [apply B | apply P]|].
  split; intros H.
  - rewrite <- (B s1), <- (B s2). now rewrite H.
  - rewrite <- (P s1), <- (P s2). now rewrite H.
Qed.

(** *** Tabs without a url *)

(** X6. Among the text tab callbacks of the built-in formats, the
    markdown one is the only one that can raise an error, and it raises
    one exactly when the tab has no url; no html tab callback ever
    raises. *)
Theorem only_markdown_throws :
  forall (f : Format) (opts : option Opts.t) (c : TabCtx.t),
    In f builtinFormats ->
    ((exists e, text_tab f opts c = Some (Throw e))
     <-> Format.id f = Some "markdown" /\ Tab.url (TabCtx.tab c) = None)
    /\ ~ (exists e, html_tab f opts c = Some (Throw e)).
Proof.
  intros f opts c Hin. simpl in Hin.
  repeat (destruct Hin as [<-|Hin];
          [try (split;
                [split; [intros [e H]; discriminate H
                        | intros [H _]; discriminate H]
                | intros [e H]; discriminate H])|]);
    [|destruct Hin].
  split; [|intros [e H]; discriminate H].
  unfold text_tab; simpl. unfold markdown_tab, js_or.
  destruct (Tab.url (TabCtx.tab c)) as [u|];
    destruct (truthy (Tab.title (TabCtx.tab c))) eqn:Et;
    try (destruct (truthy_some _ Et) as (t & -> & _)); simpl.
  - split; [intros [e H]; discriminate H | intros [_ H]; discriminate H].
  - split; [intros [e H]; discriminate H | intros [_ H]; discriminate H].
  - split; [now split | intros _; now eexists].
  - split; [now split | intros _; now eexists].
Qed.

(** X7. On a tab without a url the url position of the titleUrl1Line,
    titleUrl2Line, bbcode and custom text outputs holds the literal text
    ["undefined"]; the url, link and title formats return [undefined]
    instead of a string (title returns the title when there is one), and
    the html format returns the title or the empty string. *)
Theorem tab_output_without_url :
  forall (opts : option Opts.t) (c : TabCtx.t),
    Tab.url (TabCtx.tab c) = None ->
    let t := Tab.title (TabCtx.tab c) in
    text_tab titleUrl1Line opts c
    = Some (Normal (Some (title_or_untitled t ++ configured_separator opts
                            ++ "undefined")))
    /\ text_tab titleUrl2Line opts c
       = Some (Normal (Some (title_or_untitled t ++ LF ++ "undefined")))
    /\ text_tab bbcode opts c
       = Some (Normal (Some (if truthy t
                             then "[url=undefined]" ++ interpolate t
                                  ++ "[/url]"
                             else "[url]undefined[/url]")))
    /\ text_tab customFormat opts c
       = Some (Normal (Some (interpolate t ++ LF ++ "undefined")))
    /\ text_tab url opts c = Some (Normal None)
    /\ text_tab link opts c = Some (Normal None)
    /\ text_tab title opts c
       = Some (Normal (if truthy t then t else None))
    /\ text_tab html opts c
       = Some (Normal (Some (if truthy t then interpolate t else ""))).
Proof.
  intros opts c Hu t. subst t. unfold text_tab; simpl.
  unfold getTitleUrlText, title_or_untitled, configured_separator, js_or.
  rewrite Hu.
  destruct (Tab.title (TabCtx.tab c)) as [[|a s]|];
    destruct (opt_get opts Opts.separator); simpl;
    repeat split; reflexivity.
Qed.

(** *** csv rows *)

(** X8. The row that the csv tab callback hands to [stringifyCSVRow]
    never holds [undefined]: a missing title is a [null] cell, a missing
    url drops its cell, and the window cell is there only with a window
    sequence number.  For a tab with a url the row has as many cells as
    the header row of [start] has names, provided the scope type is
    ['window'] exactly when the tab context carries a window sequence
    number. *)
Theorem csv_row_cells :
  forall (opts : option Opts.t) (start : StartCtx.t) (c : TabCtx.t),
    let row := filter defined (csv_row c) in
    text_tab csv opts c = Some (Normal (Some (stringifyCSVRow row)))
    /\ ~ In JsUndefined row
    /\ In (if truthy (Tab.title (TabCtx.tab c))
           then JsString (interpolate (Tab.title (TabCtx.tab c)))
           else JsNull) row
    /\ List.length row
       = (if has_windowSeq c then 1 else 0) + 1
         + (match Tab.url (TabCtx.tab c) with Some _ => 1 | None => 0 end)
    /\ (Tab.url (TabCtx.tab c) <> None ->
        StartCtx.tabCount start <> 0 ->
        (StartCtx.scopeType start = ScopeTypeWindow
         <-> has_windowSeq c = true) ->
        List.length row = S (commas (csv_start start))).
Proof.
  intros opts start c row. subst row.
  split; [reflexivity|].
  split; [intros H; apply filter_In in H; destruct H as [_ H];
          discriminate H|].
  unfold csv_row, has_windowSeq, csv_start.
  destruct (TabCtx.windowSeq c) as [[|n]|];
    destruct (truthy (Tab.title (TabCtx.tab c)));
    destruct (Tab.url (TabCtx.tab c)) as [u|]; simpl.
  all: split; [auto|].
  all: split; [reflexivity|].
  all: intros Hu Hn Hs; try (now elim Hu).
  all: destruct (StartCtx.tabCount start); [now elim Hn|].
  all: destruct (StartCtx.scopeType start); simpl; try reflexivity.
  all: destruct Hs as [H1 H2];
    first [ discriminate (H1 eq_refl) | discriminate (H2 eq_refl) ].
Qed.

(** *** The properties option of the json format *)

Lemma existsb_same_members (key : string) (l1 l2 : list string) :
  (forall k, In k l1 <-> In k l2) ->
  existsb (String.eqb key) l1 = existsb (String.eqb key) l2.
Proof.
  intros H. apply eq_true_iff_eq.
  rewrite !existsb_eqb_In. apply H.
Qed.

(** X9. The json tab output depends on the [properties] option as a
    set: two lists with the same members, in any order and with any
    repetition, give the same tab object and the same tab text. *)
Theorem json_properties_as_set :
  forall (l1 l2 : list string) (pretty : option bool)
         (indentation : option string) (c : TabCtx.t),
    (forall k, In k l1 <-> In k l2) ->
    json_tab_object (json_opts (Some l1) pretty indentation) (TabCtx.tab c)
    = json_tab_object (json_opts (Some l2) pretty indentation) (TabCtx.tab c)
    /\ text_tab json_format (json_opts (Some l1) pretty indentation) c
       = text_tab json_format (json_opts (Some l2) pretty indentation) c.
Proof.
  intros l1 l2 pretty indentation c H.
  assert (Hn : noProperties (json_opts (Some l1) pretty indentation)
               = noProperties (json_opts (Some l2) pretty indentation)).
  { unfold noProperties; simpl.
    destruct l1 as [|x l1], l2 as [|y l2]; try reflexivity.
    - destruct (proj2 (H y)); now left.
    - destruct (proj1 (H x)); now left. }
  assert (Hi : forall key,
             properties_include (json_opts (Some l1) pretty indentation) key
             = properties_include (json_opts (Some l2) pretty indentation)
                 key).
  { intros key. unfold properties_include; simpl.
    now apply existsb_same_members. }
  assert (Ho : forall tab,
             json_tab_object (json_opts (Some l1) pretty indentation) tab
             = json_tab_object (json_opts (Some l2) pretty indentation) tab).
  { intros tab. unfold json_tab_object, json_member.
    now rewrite Hn, !Hi. }
  split; [apply Ho|].
  unfold text_tab; simpl. unfold json_tab. now rewrite Ho.
Qed.

(** X10. A non-empty [properties] list that names none of title, url
    and favIconUrl filters every property out: the tab object is empty
    for every tab. *)
Theorem json_unknown_properties_only :
  forall (l : list string) (pretty : option bool)
         (indentation : option string) (tab : Tab.t),
    l <> [] ->
    (forall k, In k tab_property_keys -> ~ In k l) ->
    json_tab_object (json_opts (Some l) pretty indentation) tab = [].
Proof.
  intros l pretty indentation tab Hne Hk.
  assert (Hi : forall key, In key tab_property_keys ->
             properties_include (json_opts (Some l) pretty indentation) key
             = false).
  { intros key Hin. unfold properties_include; simpl.
    apply not_true_is_false. rewrite existsb_eqb_In. now apply Hk. }
  unfold json_tab_object, json_member, noProperties. simpl opt_get.
  destruct l as [|x l]; [now elim Hne|].
  rewrite !Hi by (simpl; auto). simpl.
  now rewrite !andb_false_r.
Qed.

(** X11. In non-pretty mode ([pretty] missing or false) the json
    transforms add no line feed and ask for no indentation, whatever the
    [indent] option holds: every helper is called with 0. *)
Theorem json_compact_mode :
  forall (opts : option Opts.t) (c : TabCtx.t) (w : WindowCtx.t)
         (e : EndCtx.t),
    json_pretty opts = false ->
    let t := Transforms.text (Format.transforms json_format opts) in
    text_tab json_format opts c
    = Some (Normal (Some
        (indent (JSON_stringify (JObj (json_tab_object opts (TabCtx.tab c)))
                   0) 0)))
    /\ invoke (TextTransform.windowStart t) w
       = Some (Normal (Some
           (indent
              (open_tabs_array
                 (JSON_stringify
                    (JObj [("title",
                            JStr (getNumberedWindowText (WindowCtx.seq w)));
                           ("tabs", JArr [])]) 0)) 0)))
    /\ invoke (TextTransform.windowEnd t) w
       = Some (Normal (Some (indent "]" 0 ++ indent "}" 0)))
    /\ invoke (TextTransform.end_ t) e = Some (Normal (Some "]")).
Proof.
  intros opts c w e Hp t. subst t. unfold text_tab; simpl.
  unfold json_tab, json_windowStart, json_windowEnd, json_newline,
    json_indentSize.
  rewrite Hp. simpl.
  destruct (TabCtx.windowSeq c) as [[|n]|]; repeat split; reflexivity.
Qed.

(** *** Declared defaults and inline fallbacks *)

(** X12. For every built-in format but json, calling [label] and the
    tab callbacks with the declared default [opts] or with no [opts] at
    all gives the same result, and so does the label of the custom
    format.  The json format differs: without [opts] it keeps the
    favIconUrl that its declared defaults leave out. *)
Theorem declared_defaults_are_the_fallbacks :
  forall (f : Format) (c : TabCtx.t),
    In f builtinFormats ->
    (Format.id f <> Some "json" ->
     Format.label f (Format.opts f) = Format.label f None
     /\ text_tab f (Format.opts f) c = text_tab f None c
     /\ html_tab f (Format.opts f) c = html_tab f None c)
    /\ Format.label customFormat (Format.opts customFormat)
       = Format.label customFormat None
    /\ (truthy (Tab.favIconUrl (TabCtx.tab c)) = true ->
        In "favIconUrl" (keys (json_tab_object None (TabCtx.tab c)))
        /\ ~ In "favIconUrl"
             (keys (json_tab_object (Format.opts json_format)
                      (TabCtx.tab c)))).
Proof.
  intros f c Hin. split; [|split; [reflexivity|]].
  - intros Hid. simpl in Hin.
    repeat (destruct Hin as [<-|Hin];
            [first [ now elim Hid | repeat split ]|]).
    destruct Hin.
  - intros Hf. unfold json_tab_object, keys.
    rewrite !map_app, !in_app_iff.
    fold (keys (json_member None "title" (Tab.title (TabCtx.tab c)))).
    fold (keys (json_member None "url" (Tab.url (TabCtx.tab c)))).
    fold (keys (json_member None "favIconUrl"
                  (Tab.favIconUrl (TabCtx.tab c)))).
    fold (keys (json_member (Format.opts json_format) "title"
                  (Tab.title (TabCtx.tab c)))).
    fold (keys (json_member (Format.opts json_format) "url"
                  (Tab.url (TabCtx.tab c)))).
    fold (keys (json_member (Format.opts json_format) "favIconUrl"
                  (Tab.favIconUrl (TabCtx.tab c)))).
    rewrite !json_member_keys. simpl.
    split; [right; right; auto|].
    intuition (auto; discriminate).
Qed.

(** *** The id predicates and the registry *)

(** X13. [isFormatWithOptsId] agrees with the registry: for an id that
    [getFormat] resolves, it holds exactly when the format returned
    declares [opts]. *)
Theorem isFormatWithOptsId_agrees_with_getFormat :
  forall (id : string) (f : Format),
    getFormat id = Normal (Some f) ->
    (isFormatWithOptsId id = true <-> Format.opts f <> None).
Proof.
  intros id f. unfold getFormat, isFormatWithOptsId.
  destruct (isCustomFormatId id) eqn:Hc; intros H.
  - injection H as <-. rewrite orb_true_r. simpl. split; [discriminate|auto].
  - rewrite orb_false_r.
    assert (H' : find (has_id id) builtinFormats = Some f) by congruence.
    destruct (find_some _ _ H') as [Hin Hid].
    unfold has_id in Hid. destruct (Format.id f) as [i|] eqn:Hi;
      [|discriminate Hid].
    apply String.eqb_eq in Hid. subst i. simpl in Hin.
    repeat (destruct Hin as [<-|Hin];
            [simpl in Hi; injection Hi as <-; simpl;
             split; [first [discriminate | intros _; discriminate]
                    | first [intros _; reflexivity | intros E; now elim E]]|]).
    destruct Hin.
Qed.

(** *** The options page *)

Lemma NoDup_ids_filter (p : ConfiguredFormat.t -> bool)
    (l : list ConfiguredFormat.t) :
  NoDup (map ConfiguredFormat.id l) ->
  NoDup (map ConfiguredFormat.id (filter p l)).
Proof.
  induction l as [|x l IH]; intros H; [constructor|].
  simpl in H. inversion H as [|? ? Hx Hl]; subst.
  simpl. destruct (p x); [|now apply IH].
  simpl. constructor; [|now apply IH].
  intros Hin. apply Hx. apply in_map_iff in Hin.
  destruct Hin as (y & Hy & Hin). apply filter_In in Hin.
  apply in_map_iff. exists y. now split.
Qed.

Lemma findIndex_of_nth (l : list ConfiguredFormat.t) :
  NoDup (map ConfiguredFormat.id l) ->
  forall i x,
    nth_error l i = Some x ->
    findIndex (fun f => String.eqb (ConfiguredFormat.id f)
                          (ConfiguredFormat.id x)) l
    = Some i.
Proof.
  induction l as [|y l IH]; intros H i x Hn; [now destruct i|].
  simpl in H. inversion H as [|? ? Hy Hl]; subst.
  destruct i as [|i]; simpl in Hn |- *.
  - injection Hn as ->. now rewrite String.eqb_refl.
  - destruct (String.eqb_spec (ConfiguredFormat.id y) (ConfiguredFormat.id x))
      as [E|_].
    + elim Hy. rewrite E. apply in_map. now apply nth_error_In with i.
    + now rewrite (IH Hl i x Hn).
Qed.

(** X14. When the configured formats have distinct ids, the description
    of a visible format tells its rank among the visible ones: the
    first is the default, the second and the third go with the
    secondary and the ternary modifier key, and from the fourth on there
    is no description; a hidden format is described as hidden whatever
    its position. *)
Theorem getFormatDescription_by_rank :
  forall (configuredFormats : list ConfiguredFormat.t)
         (format : ConfiguredFormat.t) (rank : nat),
    NoDup (map ConfiguredFormat.id configuredFormats) ->
    (nth_error (visibleFormats configuredFormats) rank = Some format ->
     getFormatDescription format (visibleFormats configuredFormats)
     = match rank with
       | 0 => Some (sentenceCase intl_default)
       | 1 => Some (sentenceCase
                      (intl_holdWhenCopying getSecondaryActionModifierKeyLabel))
       | 2 => Some (sentenceCase
                      (intl_holdWhenCopying getTernaryActionModifierKeyLabel))
       | _ => None
       end)
    /\ (ConfiguredFormat.visible format = false ->
        getFormatDescription format (visibleFormats configuredFormats)
        = Some (sentenceCase intl_hidden)).
Proof.
  intros cfs format rank Hnd. unfold getFormatDescription. split.
  - intros Hn.
    assert (Hv : ConfiguredFormat.visible format = true).
    { apply nth_error_In in Hn. unfold visibleFormats in Hn.
      now apply filter_In in Hn. }
    rewrite Hv. simpl. unfold visibleFormats in *.
    rewrite (@findIndex_of_nth _
               (@NoDup_ids_filter ConfiguredFormat.visible cfs Hnd)
               _ _ Hn).
    now destruct rank as [|[|[|n]]].
  - intros ->. reflexivity.
Qed.

(** X15. When the toggles are locked, that is when at most
    [MIN_VISIBLE_FORMAT_COUNT] formats are visible, the toggle of a
    configured format is disabled exactly when the format is visible,
    and every visible format has a description: the locked formats are
    the ones bound to the default and to the two modifier keys. *)
Theorem locked_toggles :
  forall (configuredFormats : list ConfiguredFormat.t)
         (format : ConfiguredFormat.t),
    NoDup (map ConfiguredFormat.id configuredFormats) ->
    isMinVisibleFormatCount configuredFormats = true ->
    In format configuredFormats ->
    (toggle_disabled format configuredFormats = true
     <-> ConfiguredFormat.visible format = true)
    /\ (ConfiguredFormat.visible format = true ->
        getFormatDescription format (visibleFormats configuredFormats)
        <> None).
Proof.
  intros cfs format Hnd Hmin Hin. unfold toggle_disabled. rewrite Hmin.
  split; [now rewrite andb_true_r|].
  intros Hv.
  assert (Hf : In format (visibleFormats cfs))
    by (apply filter_In; now split).
  apply In_nth_error in Hf. destruct Hf as [rank Hn].
  assert (Hlt : rank < List.length (visibleFormats cfs))
    by (apply nth_error_Some; congruence).
  unfold isMinVisibleFormatCount, MIN_VISIBLE_FORMAT_COUNT in Hmin.
  apply Nat.leb_le in Hmin.
  unfold getFormatDescription. rewrite Hv. simpl.
  unfold visibleFormats in *.
  rewrite (@findIndex_of_nth _
               (@NoDup_ids_filter ConfiguredFormat.visible cfs Hnd)
               _ _ Hn).
  destruct rank as [|[|[|n]]]; try discriminate. lia.
Qed.

(** X16. [deleteFormat] passes an id to [removeCustomFormat] only when
    the id starts with ["custom-"]; for the id of a built-in format
    with options it sets the generic error and calls nothing, whatever
    the removal would answer; and the id under edit changes only when a
    custom format was removed, in which case the editor is closed and
    the error cleared. *)
Theorem deleteFormat_outcome :
  forall (removeCustomFormat : string -> RemoveOutcome) (formatId : string)
         (st : Editor.t),
    let after := fst (deleteFormat removeCustomFormat formatId st) in
    let removals := snd (deleteFormat removeCustomFormat formatId st) in
    (forall id, In id removals -> id = formatId
                                  /\ isCustomFormatId formatId = true)
    /\ (isBuiltinFormatWithOptsId formatId = true ->
        after = setEditError (sentenceCase intl_genericFormatDeleteError) st
        /\ removals = [])
    /\ (Editor.optsEditFormatId after <> Editor.optsEditFormatId st ->
        isCustomFormatId formatId = true
        /\ removeCustomFormat formatId = Removed)
    /\ (isCustomFormatId formatId = true ->
        removeCustomFormat formatId = Removed ->
        after = {| Editor.optsEditFormatId := None; Editor.editError := "" |}
        /\ removals = [formatId]).
Proof.
  intros remove formatId st after removals. subst after removals.
  unfold deleteFormat.
  destruct (isCustomFormatId formatId) eqn:Hc.
  - split; [|split; [|split]].
    + intros id Hin.
      destruct (remove formatId); simpl in Hin;
        destruct Hin as [<-|[]]; now split.
    + intros Hb. exfalso.
      unfold isBuiltinFormatWithOptsId in Hb. simpl in Hb.
      rewrite !orb_false_r in Hb.
      repeat (apply orb_true_iff in Hb; destruct Hb as [Hb|Hb]);
        apply String.eqb_eq in Hb; subst formatId; discriminate Hc.
    + destruct (remove formatId); simpl; intros H;
        first [ now split | now elim H ].
    + intros _ ->. now split.
  - split; [|split; [|split]].
    + intros id [].
    + intros _. now split.
    + simpl. intros H. now elim H.
    + discriminate.
Qed.

(** X17. Whenever [JSON.stringify] renders the window object with its
    empty [tabs] array last, that is as some text followed by ["[]"],
    spaces or line feeds and the closing brace, the json window header
    is that text with the array left open, indented as the options
    ask. *)
Theorem json_windowStart_opens_tabs :
  forall (opts : option Opts.t) (w : WindowCtx.t) (before gap : string),
    blank gap = true ->
    JSON_stringify
      (JObj [("title", JStr (getNumberedWindowText (WindowCtx.seq w)));
             ("tabs", JArr [])])
      (json_indentSize opts)
    = before ++ "[]" ++ gap ++ "}" ->
    invoke (TextTransform.windowStart
              (Transforms.text (Format.transforms json_format opts))) w
    = Some (Normal (Some
        (json_newline opts ++ indent (before ++ "[") (json_indentSize opts)))).
Proof.
  intros opts w before gap Hb Hs. simpl. unfold json_windowStart.
  rewrite Hs. rewrite open_tabs_array_prefix.
  - reflexivity.
  - now apply empty_array_tail_blank.
  - reflexivity.
Qed.

End MoreProperties.

(** ** The further properties at concrete inputs *)

Lemma open_tabs_array_opens_tail_witness :
  open_tabs_array ("{a: [], tabs: []" ++ LF ++ "  }") = "{a: [], tabs: [".
Proof.
  exact (open_tabs_array_opens_tail "{a: [], tabs: " (LF ++ "  ") eq_refl).
Defined.

Lemma open_tabs_array_unchanged_witness :
  open_tabs_array "[] }]" = "[] }]".
Proof. exact (open_tabs_array_unchanged "[] }]" eq_refl). Defined.

Lemma getTitleUrlText_revisions_agree_witness :
  EarlierRevision.getTitleUrlText (Some "http://x") None (Some " | ")
  = getTitleUrlText (Some "http://x") None (Some " | ").
Proof.
  apply (getTitleUrlText_revisions_agree (Some "http://x") None (Some " | ")).
  discriminate.
Defined.

Lemma markdown_tab_never_bare_witness :
  exists T U,
    text_tab (@markdown Sample.english) None
      (Sample.ctx (Sample.tab (Some "a[1]") (Some "http://x/(y)")))
    = Some (Normal (Some ("[" ++ T ++ "](" ++ U ++ ")")))
    /\ guarded is_bracket false T = true
    /\ guarded is_paren false U = true.
Proof.
  exact (@markdown_tab_never_bare Sample.english None
           (Sample.ctx (Sample.tab (Some "a[1]") (Some "http://x/(y)")))
           "http://x/(y)" eq_refl).
Defined.

Lemma markdown_escaping_injective_witness :
  unescape is_bracket (replace_all "]" "\]" (replace_all "[" "\[" "a[1]"))
  = "a[1]".
Proof.
  destruct (markdown_escaping_injective "a[1]" "b") as [[H _] _]. exact H.
Defined.

Lemma only_markdown_throws_witness :
  In (@markdown Sample.english) (@builtinFormats Sample.english)
  /\ exists e,
       text_tab (@markdown Sample.english) None
         (Sample.ctx (Sample.tab (Some "A") None))
       = Some (Throw e).
Proof.
  assert (Hin : In (@markdown Sample.english) (@builtinFormats Sample.english)).
  { simpl. auto 10. }
  split; [exact Hin|].
  destruct (@only_markdown_throws Sample.english _ None
              (Sample.ctx (Sample.tab (Some "A") None)) Hin) as [[_ H] _].
  apply H. split; reflexivity.
Defined.

Lemma tab_output_without_url_witness :
  text_tab (@titleUrl1Line Sample.english) None
    (Sample.ctx (Sample.tab (Some "A") None))
  = Some (Normal (Some "A: undefined")).
Proof.
  destruct (@tab_output_without_url Sample.english None
              (Sample.ctx (Sample.tab (Some "A") None)) eq_refl) as [H _].
  exact H.
Defined.

Lemma csv_row_cells_witness :
  List.length (filter defined
                 (@csv_row Sample.english
                    (Sample.ctx (Sample.tab None (Some "http://x")))))
  = S (commas (csv_start (StartCtx.mk "csv" (Some 1) 1 ScopeTypeWindow))).
Proof.
  destruct (@csv_row_cells Sample.english None
              (StartCtx.mk "csv" (Some 1) 1 ScopeTypeWindow)
              (Sample.ctx (Sample.tab None (Some "http://x"))))
    as (_ & _ & _ & _ & H).
  apply H; [discriminate | discriminate | split; reflexivity].
Defined.

Lemma json_properties_as_set_witness :
  json_tab_object (json_opts (Some ["url"; "title"; "url"]) None None)
    (Sample.tab (Some "A") (Some "http://a"))
  = json_tab_object (json_opts (Some ["title"; "url"]) None None)
      (Sample.tab (Some "A") (Some "http://a")).
Proof.
  assert (H : forall k,
             In k ["url"; "title"; "url"] <-> In k ["title"; "url"])
    by (intros k; simpl; tauto).
  destruct (@json_properties_as_set Sample.english
              ["url"; "title"; "url"] ["title"; "url"] None None
              (Sample.ctx (Sample.tab (Some "A") (Some "http://a"))) H)
    as [Ho _].
  exact Ho.
Defined.

Lemma json_unknown_properties_only_witness :
  json_tab_object (json_opts (Some ["id"]) None None)
    (Sample.tab (Some "A") (Some "http://a"))
  = [].
Proof.
  apply (@json_unknown_properties_only ["id"] None None
           (Sample.tab (Some "A") (Some "http://a"))).
  - discriminate.
  - intros k Hk [H|[]]. subst k. simpl in Hk.
    destruct Hk as [H|[H|[H|[]]]]; discriminate H.
Defined.

Lemma json_compact_mode_witness :
  invoke (TextTransform.end_
            (Transforms.text
               (Format.transforms (@json_format Sample.english)
                  (json_opts None (Some false) (Some "8")))))
    (EndCtx.mk "json" None 1)
  = Some (Normal (Some "]")).
Proof.
  destruct (@json_compact_mode Sample.english
              (json_opts None (Some false) (Some "8"))
              (Sample.ctx (Sample.tab None (Some "http://x")))
              (WindowCtx.mk (Sample.window []) 1 0)
              (EndCtx.mk "json" None 1) eq_refl) as (_ & _ & _ & H).
  exact H.
Defined.

Lemma declared_defaults_are_the_fallbacks_witness :
  In (@titleUrl1Line Sample.english) (@builtinFormats Sample.english)
  /\ Format.label (@titleUrl1Line Sample.english)
       (Format.opts (@titleUrl1Line Sample.english))
     = Format.label (@titleUrl1Line Sample.english) None.
Proof.
  assert (Hin : In (@titleUrl1Line Sample.english)
                  (@builtinFormats Sample.english)).
  { simpl. auto. }
  split; [exact Hin|].
  destruct (@declared_defaults_are_the_fallbacks Sample.english _
              (Sample.ctx (Sample.tab None (Some "http://x"))) Hin)
    as [H _].
  destruct (H ltac:(discriminate)) as [Hl _]. exact Hl.
Defined.

Lemma isFormatWithOptsId_agrees_with_getFormat_witness :
  @getFormat Sample.english "csv" = Normal (Some (@csv Sample.english))
  /\ @isFormatWithOptsId Sample.english "csv" <> true.
Proof.
  split; [reflexivity|].
  intros H.
  apply (@isFormatWithOptsId_agrees_with_getFormat Sample.english
           "csv" (@csv Sample.english) eq_refl) in H.
  now apply H.
Defined.

Lemma sample_ids_distinct :
  NoDup (map ConfiguredFormat.id SamplePage.configured).
Proof.
  repeat constructor; simpl; intuition discriminate.
Defined.

Lemma getFormatDescription_by_rank_witness :
  @getFormatDescription Sample.english SamplePage.page
    (ConfiguredFormat.mk "json" true)
    (visibleFormats SamplePage.configured)
  = Some "Hold Shift + Ctrl when copying"
  /\ @getFormatDescription Sample.english SamplePage.page
       (ConfiguredFormat.mk "custom-1a2b" true)
       (visibleFormats SamplePage.configured)
     = None.
Proof.
  split.
  - destruct (@getFormatDescription_by_rank Sample.english SamplePage.page
                SamplePage.configured (ConfiguredFormat.mk "json" true) 2
                sample_ids_distinct) as [H _].
    exact (H eq_refl).
  - destruct (@getFormatDescription_by_rank Sample.english SamplePage.page
                SamplePage.configured (ConfiguredFormat.mk "custom-1a2b" true)
                3 sample_ids_distinct) as [H _].
    exact (H eq_refl).
Defined.

Lemma locked_toggles_witness :
  let three := [ConfiguredFormat.mk "link" true;
                ConfiguredFormat.mk "csv" false;
                ConfiguredFormat.mk "url" true;
                ConfiguredFormat.mk "json" true] in
  toggle_disabled (ConfiguredFormat.mk "url" true) three = true
  /\ toggle_disabled (ConfiguredFormat.mk "csv" false) three <> true.
Proof.
  intros three.
  assert (Hnd : NoDup (map ConfiguredFormat.id three)).
  { repeat constructor; simpl; intuition discriminate. }
  split.
  - destruct (@locked_toggles Sample.english SamplePage.page three
                (ConfiguredFormat.mk "url" true) Hnd eq_refl) as [H _].
    { simpl. auto. }
    now apply H.
  - destruct (@locked_toggles Sample.english SamplePage.page three
                (ConfiguredFormat.mk "csv" false) Hnd eq_refl) as [H _].
    { simpl. auto. }
    intros E. apply H in E. discriminate E.
Defined.

Lemma deleteFormat_outcome_witness :
  @deleteFormat Sample.english SamplePage.page (fun _ => Removed) "json"
    (Editor.mk (Some "json") "")
  = (Editor.mk (Some "json") "Could not delete format", []).
Proof.
  destruct (@deleteFormat_outcome Sample.english SamplePage.page
              (fun _ => Removed) "json" (Editor.mk (Some "json") ""))
    as (_ & H & _).
  destruct (H eq_refl) as [H1 H2].
  rewrite (surjective_pairing (deleteFormat _ _ _)), H1, H2. reflexivity.
Defined.

Lemma json_windowStart_opens_tabs_witness :
  invoke (TextTransform.windowStart
            (Transforms.text
               (Format.transforms (@json_format Sample.english) None)))
    (WindowCtx.mk (Sample.window []) 1 0)
  = Some (Normal (Some
      ("{" ++ DQUOTE ++ "title" ++ DQUOTE ++ ":" ++ DQUOTE ++ "Window 1"
       ++ DQUOTE ++ "," ++ DQUOTE ++ "tabs" ++ DQUOTE ++ ":["))).
Proof.
  exact (@json_windowStart_opens_tabs Sample.english None
           (WindowCtx.mk (Sample.window []) 1 0)
           ("{" ++ DQUOTE ++ "title" ++ DQUOTE ++ ":" ++ DQUOTE ++ "Window 1"
            ++ DQUOTE ++ "," ++ DQUOTE ++ "tabs" ++ DQUOTE ++ ":")
           "" eq_refl eq_refl).
Defined.
